(** * lantea-store: the SQLModel data layer of [backend/app/models.py]

    The file embeds the declarations of [models.py] as data (one field
    declaration per annotated attribute, with the keyword arguments of
    [Field] kept as written), the way pydantic/SQLModel read them:
    inheritance of fields, validation of a payload against a class, the
    set of fields a payload has set, the public view of a row, and the
    table-level constraints (unique, not null, cascades) the declarations
    ask the store to enforce. *)

From stdpp Require Import base strings gmap list.
From Stdlib Require Import ZArith Lia.

Local Open Scope string_scope.
Local Open Scope list_scope.
Local Open Scope nat_scope.

(** ** Python values *)

(** [decimal.Decimal] as [Decimal.as_tuple()] gives it:
    sign, coefficient digits, exponent. *)
Record Decimal := mkDecimal {
  dec_sign : bool;            (* True for a leading minus *)
  dec_digits : list nat;
  dec_exponent : Z
}.

(** The values a payload, an instance attribute or a column can hold.
    A payload is the dictionary handed to [model_validate]; its values are
    taken with the Python type they have. The one conversion kept is the
    one the declared defaults rely on: an int given for a Decimal field
    becomes the Decimal of that int. *)
Inductive value :=
  | VNone
  | VBool (b : bool)
  | VInt (z : Z)
  | VStr (s : string)
  | VDecimal (d : Decimal)
  | VUuid (u : N).

Global Instance Decimal_eq_dec : EqDecision Decimal.
Proof. solve_decision. Defined.
Global Instance value_eq_dec : EqDecision value.
Proof. solve_decision. Defined.

(** ** Field declarations *)

Inductive pytype := Tstr | TEmailStr | Tbool | Tint | TDecimal | TUUID.

(** [Plain T] is the annotation [T]; [OrNone T] is [T | None]. *)
Inductive annotation :=
  | Plain (t : pytype)
  | OrNone (t : pytype).

(** The keyword arguments of [Field(...)] used in [models.py]. *)
Inductive kwarg :=
  | default (v : value)
  | default_factory_uuid4
  | min_length (n : nat)
  | max_length (n : nat)
  | ge (z : Z)
  | max_digits (n : nat)
  | decimal_places (n : nat)
  | unique (b : bool)
  | index (b : bool)
  | primary_key (b : bool)
  | foreign_key (target : string)
  | nullable (b : bool)
  | ondelete (action : string).

Record field := Field {
  name : string;
  ann : annotation;
  kwargs : list kwarg
}.

(** [Relationship(back_populates=..., cascade_delete=...)]: an attribute
    that is not a column; [rel_target] is the class at the other end. *)
Record relationship := Relationship {
  rel_name : string;
  rel_target : string;
  rel_many : bool;                 (* list["X"] rather than X | None *)
  back_populates : string;
  cascade_delete : bool
}.

Record SQLModel := Model {
  class_name : string;
  model_fields : list field;
  table : bool;
  relationships : list relationship
}.

(** A subclass re-declaring an attribute replaces the inherited declaration
    (at the inherited position); a new attribute comes after the inherited
    ones. *)
Fixpoint override (fds : list field) (fd : field) : list field :=
  match fds with
  | [] => [fd]
  | g :: rest =>
      if decide (name g = name fd) then fd :: rest else g :: override rest fd
  end.

Definition inherit (base : list field) (own : list field) : list field :=
  foldl override base own.

Definition class (cname : string) (base : list field) (own : list field) : SQLModel :=
  Model cname (inherit base own) false [].

Definition table_class (cname : string) (base : list field) (own : list field)
    (rels : list relationship) : SQLModel :=
  Model cname (inherit base own) true rels.

(** ** The classes of models.py, in source order

    The collection shapes (UsersPublic, ItemsPublic, BeveragesPublic,
    OrdersPublic, OrderDetailsPublic: a list of public instances and a
    count) carry no constraint and are left out. *)

Definition UserBase : SQLModel := class "UserBase" [] [
  Field "email" (Plain TEmailStr) [unique true; index true; max_length 255];
  Field "is_active" (Plain Tbool) [default (VBool true)];
  Field "is_superuser" (Plain Tbool) [default (VBool false)];
  Field "full_name" (OrNone Tstr) [default VNone; max_length 255]
].

Definition UserCreate : SQLModel := class "UserCreate" (model_fields UserBase) [
  Field "password" (Plain Tstr) [min_length 8; max_length 40]
].

Definition UserRegister : SQLModel := class "UserRegister" [] [
  Field "email" (Plain TEmailStr) [max_length 255];
  Field "password" (Plain Tstr) [min_length 8; max_length 40];
  Field "full_name" (OrNone Tstr) [default VNone; max_length 255]
].

Definition UserUpdate : SQLModel := class "UserUpdate" (model_fields UserBase) [
  Field "email" (OrNone TEmailStr) [default VNone; max_length 255];
  Field "password" (OrNone Tstr) [default VNone; min_length 8; max_length 40]
].

Definition UserUpdateMe : SQLModel := class "UserUpdateMe" [] [
  Field "full_name" (OrNone Tstr) [default VNone; max_length 255];
  Field "email" (OrNone TEmailStr) [default VNone; max_length 255]
].

Definition UpdatePassword : SQLModel := class "UpdatePassword" [] [
  Field "current_password" (Plain Tstr) [min_length 8; max_length 40];
  Field "new_password" (Plain Tstr) [min_length 8; max_length 40]
].

Definition User : SQLModel := table_class "User" (model_fields UserBase) [
  Field "id" (Plain TUUID) [default_factory_uuid4; primary_key true];
  Field "hashed_password" (Plain Tstr) []
] [
  Relationship "items" "Item" true "owner" true;
  Relationship "orders" "Order" true "user" true
].

Definition UserPublic : SQLModel := class "UserPublic" (model_fields UserBase) [
  Field "id" (Plain TUUID) []
].

Definition ItemBase : SQLModel := class "ItemBase" [] [
  Field "title" (Plain Tstr) [min_length 1; max_length 255];
  Field "description" (OrNone Tstr) [default VNone; max_length 255]
].

Definition ItemCreate : SQLModel := class "ItemCreate" (model_fields ItemBase) [].

Definition ItemUpdate : SQLModel := class "ItemUpdate" (model_fields ItemBase) [
  Field "title" (OrNone Tstr) [default VNone; min_length 1; max_length 255]
].

Definition Item : SQLModel := table_class "Item" (model_fields ItemBase) [
  Field "id" (Plain TUUID) [default_factory_uuid4; primary_key true];
  Field "title" (Plain Tstr) [max_length 255];
  Field "owner_id" (Plain TUUID) [foreign_key "user.id"; nullable false; ondelete "CASCADE"]
] [
  Relationship "owner" "User" false "items" false
].

Definition ItemPublic : SQLModel := class "ItemPublic" (model_fields ItemBase) [
  Field "id" (Plain TUUID) [];
  Field "owner_id" (Plain TUUID) []
].

Definition BeverageBase : SQLModel := class "BeverageBase" [] [
  Field "name" (Plain Tstr) [min_length 1; max_length 255];
  Field "description" (OrNone Tstr) [default VNone; max_length 255];
  Field "price" (Plain TDecimal) [default (VInt 0); max_digits 5; decimal_places 3];
  Field "inventory" (Plain Tint) [ge 0]
].

Definition BeverageCreate : SQLModel :=
  class "BeverageCreate" (model_fields BeverageBase) [].

Definition BeverageUpdate : SQLModel := class "BeverageUpdate" (model_fields BeverageBase) [
  Field "name" (OrNone Tstr) [default VNone; min_length 1; max_length 255];
  Field "price" (Plain TDecimal) [default (VInt 0); max_digits 5; decimal_places 3];
  Field "inventory" (OrNone Tint) [default VNone; ge 0]
].

Definition Beverage : SQLModel := table_class "Beverage" (model_fields BeverageBase) [
  Field "id" (Plain TUUID) [default_factory_uuid4; primary_key true]
] [].

Definition BeveragePublic : SQLModel := class "BeveragePublic" (model_fields BeverageBase) [
  Field "id" (Plain TUUID) []
].

Definition OrderBase : SQLModel := class "OrderBase" [] [
  Field "user_id" (Plain TUUID) [foreign_key "user.id"; nullable false];
  Field "total_price" (Plain TDecimal) [default (VInt 0); max_digits 10; decimal_places 2];
  Field "status" (Plain Tstr) [default (VStr "pending"); max_length 50]
].

Definition OrderCreate : SQLModel := class "OrderCreate" (model_fields OrderBase) [].

Definition OrderUpdate : SQLModel := class "OrderUpdate" (model_fields OrderBase) [
  Field "status" (OrNone Tstr) [default VNone; max_length 50]
].

Definition Order : SQLModel := table_class "Order" (model_fields OrderBase) [
  Field "id" (Plain TUUID) [default_factory_uuid4; primary_key true]
] [
  Relationship "user" "User" false "orders" false;
  Relationship "order_details" "OrderDetail" true "order" true
].

Definition OrderPublic : SQLModel := class "OrderPublic" (model_fields OrderBase) [
  Field "id" (Plain TUUID) []
].

Definition OrderDetailBase : SQLModel := class "OrderDetailBase" [] [
  Field "order_id" (Plain TUUID) [foreign_key "order.id"; nullable false];
  Field "item_id" (Plain TUUID) [foreign_key "item.id"; nullable false];
  Field "quantity" (Plain Tint) [ge 1];
  Field "price" (Plain TDecimal) [default (VInt 0); max_digits 10; decimal_places 2]
].

Definition OrderDetailCreate : SQLModel :=
  class "OrderDetailCreate" (model_fields OrderDetailBase) [].

Definition OrderDetailUpdate : SQLModel :=
  class "OrderDetailUpdate" (model_fields OrderDetailBase) [
  Field "quantity" (OrNone Tint) [default VNone; ge 1];
  Field "price" (OrNone TDecimal) [default VNone; max_digits 10; decimal_places 2]
].

Definition OrderDetail : SQLModel := table_class "OrderDetail" (model_fields OrderDetailBase) [
  Field "id" (Plain TUUID) [default_factory_uuid4; primary_key true]
] [
  Relationship "order" "Order" false "order_details" false
].

Definition OrderDetailPublic : SQLModel :=
  class "OrderDetailPublic" (model_fields OrderDetailBase) [
  Field "id" (Plain TUUID) []
].

Definition Message : SQLModel := class "Message" [] [
  Field "message" (Plain Tstr) []
].

Definition Token : SQLModel := class "Token" [] [
  Field "access_token" (Plain Tstr) [];
  Field "token_type" (Plain Tstr) [default (VStr "bearer")]
].

Definition TokenPayload : SQLModel := class "TokenPayload" [] [
  Field "sub" (OrNone Tstr) [default VNone]
].

Definition NewPassword : SQLModel := class "NewPassword" [] [
  Field "token" (Plain Tstr) [];
  Field "new_password" (Plain Tstr) [min_length 8; max_length 40]
].

(** ** Reading a field declaration *)

Definition kw_default (uuid4 : N) (k : kwarg) : option value :=
  match k with
  | default v => Some v
  | default_factory_uuid4 => Some (VUuid uuid4)
  | _ => None
  end.
Definition kw_min_length (k : kwarg) : option nat :=
  match k with min_length n => Some n | _ => None end.
Definition kw_max_length (k : kwarg) : option nat :=
  match k with max_length n => Some n | _ => None end.
Definition kw_ge (k : kwarg) : option Z :=
  match k with ge z => Some z | _ => None end.
Definition kw_max_digits (k : kwarg) : option nat :=
  match k with max_digits n => Some n | _ => None end.
Definition kw_decimal_places (k : kwarg) : option nat :=
  match k with decimal_places n => Some n | _ => None end.
Definition kw_unique (k : kwarg) : option bool :=
  match k with unique b => Some b | _ => None end.
Definition kw_primary_key (k : kwarg) : option bool :=
  match k with primary_key b => Some b | _ => None end.
Definition kw_nullable (k : kwarg) : option bool :=
  match k with nullable b => Some b | _ => None end.
Definition kw_foreign_key (k : kwarg) : option string :=
  match k with foreign_key t => Some t | _ => None end.

(** The value of one keyword argument of a declaration, if it is given. *)
Definition get {A} (sel : kwarg → option A) (fd : field) : option A :=
  head (omap sel (kwargs fd)).

(** A field is required when it declares neither a default nor a factory. *)
Definition is_required (fd : field) : bool :=
  match get (kw_default 0) fd with Some _ => false | None => true end.

Definition field_names (cls : SQLModel) : list string := name <$> model_fields cls.

Definition required_fields (cls : SQLModel) : list string :=
  name <$> filter (λ fd, is_required fd = true) (model_fields cls).

Definition base_type (a : annotation) : pytype :=
  match a with Plain t | OrNone t => t end.

Definition allows_None (a : annotation) : bool :=
  match a with Plain _ => false | OrNone _ => true end.

(** ** Validation of one value *)

Inductive error_type :=
  | missing
  | string_type | bool_type | int_type | decimal_type | uuid_type
  | string_too_short | string_too_long
  | too_short | too_long
  | greater_than_equal
  | decimal_max_digits | decimal_max_places | decimal_whole_digits
  | value_error.

Record error := Error { loc : string; type : error_type }.

Global Instance error_type_eq_dec : EqDecision error_type.
Proof. solve_decision. Defined.
Global Instance error_eq_dec : EqDecision error.
Proof. solve_decision. Defined.

Definition check_length (fd : field) (s : string) : option error_type :=
  let n := String.length s in
  match get kw_min_length fd, get kw_max_length fd with
  | Some lo, _ => if (n <? lo)%nat then Some string_too_short else
      match get kw_max_length fd with
      | Some hi => if (hi <? n)%nat then Some string_too_long else None
      | None => None
      end
  | None, Some hi => if (hi <? n)%nat then Some string_too_long else None
  | None, None => None
  end.

(** The same bounds on a type that is not a plain [str]: pydantic cannot put
    them in the type's own schema and applies them to the value the type's
    validator returns, with the generic errors. *)
Definition check_length_after (fd : field) (s : string) : option error_type :=
  match check_length fd s with
  | Some string_too_short => Some too_short
  | Some string_too_long => Some too_long
  | r => r
  end.

Definition check_ge (fd : field) (z : Z) : option error_type :=
  match get kw_ge fd with
  | Some lo => if (z <? lo)%Z then Some greater_than_equal else None
  | None => None
  end.

(** Number of decimal places and of digits of a Decimal, counted from its
    tuple: a non-negative exponent adds that many trailing zeros to the
    digits; a negative one gives the decimal places, and the digits are at
    least as many. *)
Definition decimal_digits_info (d : Decimal) : nat * nat :=
  let n := length (dec_digits d) in
  if (0 <=? dec_exponent d)%Z then (0, n + Z.to_nat (dec_exponent d))
  else let decimals := Z.to_nat (- dec_exponent d) in (decimals, Nat.max n decimals).

(** The coefficient of a Decimal, and the comparison [d < lo] with an int:
    [d] is [(-1)^sign * coefficient * 10^exponent]. *)
Definition Decimal_coefficient (d : Decimal) : Z :=
  foldl (λ acc n, 10 * acc + Z.of_nat n)%Z 0%Z (dec_digits d).

Definition Decimal_lt_int (d : Decimal) (lo : Z) : bool :=
  let c := Decimal_coefficient d in
  let signed := if dec_sign d then (- c)%Z else c in
  (signed * 10 ^ Z.max (dec_exponent d) 0 <? lo * 10 ^ Z.max (- dec_exponent d) 0)%Z.

Definition Decimal_neg (d : Decimal) : Decimal :=
  mkDecimal (negb (dec_sign d)) (dec_digits d) (dec_exponent d).

(** [Decimal.normalize]: trailing zeros of the coefficient are dropped and
    counted into the exponent; a zero becomes the digit 0 with exponent 0.
    (The rounding of normalize to the context's 28 digits is left out: it
    changes only coefficients of more than 28 significant digits.) *)
Fixpoint strip_zeros (ds : list nat) : list nat :=
  match ds with
  | [] => []
  | n :: rest =>
      match strip_zeros rest with
      | [] => if (n =? 0)%nat then [] else [n]
      | r => n :: r
      end
  end.

Definition Decimal_normalize (d : Decimal) : Decimal :=
  match strip_zeros (dec_digits d) with
  | [] => mkDecimal (dec_sign d) [0] 0
  | ds => mkDecimal (dec_sign d) ds
            (dec_exponent d + Z.of_nat (length (dec_digits d) - length ds))
  end.

(** The digit bounds are tried on the Decimal as given and on the normalised
    one: a bound is broken when both counts exceed it, so that trailing zeros
    do not count. The whole digits are those of the Decimal as given. *)
Definition check_decimal_digits (fd : field) (d : Decimal) : option error_type :=
  let '(decimals, digits) := decimal_digits_info d in
  let '(normalized_decimals, normalized_digits) :=
    decimal_digits_info (Decimal_normalize d) in
  let over (bound : option nat) (n : nat) : bool :=
    match bound with Some b => (b <? n)%nat | None => false end in
  if over (get kw_max_digits fd) digits
     && over (get kw_max_digits fd) normalized_digits
  then Some decimal_max_digits
  else if over (get kw_decimal_places fd) decimals
          && over (get kw_decimal_places fd) normalized_decimals
  then Some decimal_max_places
  else match get kw_max_digits fd, get kw_decimal_places fd with
       | Some md, Some dp =>
           if (md - dp <? digits - decimals)%nat then Some decimal_whole_digits else None
       | _, _ => None
       end.

(** The digit bounds first, then the lower bound [ge], if one is declared. *)
Definition check_decimal (fd : field) (d : Decimal) : option error_type :=
  match check_decimal_digits fd d with
  | Some e => Some e
  | None =>
      match get kw_ge fd with
      | Some lo => if Decimal_lt_int d lo then Some greater_than_equal else None
      | None => None
      end
  end.

Fixpoint digits_of_uint (u : Decimal.uint) : list nat :=
  match u with
  | Decimal.Nil => []
  | Decimal.D0 r => 0 :: digits_of_uint r
  | Decimal.D1 r => 1 :: digits_of_uint r
  | Decimal.D2 r => 2 :: digits_of_uint r
  | Decimal.D3 r => 3 :: digits_of_uint r
  | Decimal.D4 r => 4 :: digits_of_uint r
  | Decimal.D5 r => 5 :: digits_of_uint r
  | Decimal.D6 r => 6 :: digits_of_uint r
  | Decimal.D7 r => 7 :: digits_of_uint r
  | Decimal.D8 r => 8 :: digits_of_uint r
  | Decimal.D9 r => 9 :: digits_of_uint r
  end.

(** [Decimal(z)] for an int [z]: its decimal digits, exponent 0. *)
Definition Decimal_of_int (z : Z) : Decimal :=
  mkDecimal (z <? 0)%Z (digits_of_uint (N.to_uint (Z.abs_N z))) 0.

(** The value a field of type [t] holds for the input [v]. *)
Definition coerce (t : pytype) (v : value) : value :=
  match t, v with
  | TDecimal, VInt z => VDecimal (Decimal_of_int z)
  | _, _ => v
  end.

Section Validation.

(** [EmailStr] defers to the email-validator package; its grammar is not
    part of models.py and is taken as given. The grammar is checked first,
    the length bound of the field after it; the string is kept as given
    (the normal form email-validator returns is not modelled). *)
Variable is_email : string → bool.

Definition check_typed (fd : field) (v : value) : option error_type :=
  match base_type (ann fd), coerce (base_type (ann fd)) v with
  | Tstr, VStr s => check_length fd s
  | Tstr, _ => Some string_type
  | TEmailStr, VStr s =>
      if is_email s then check_length_after fd s else Some value_error
  | TEmailStr, _ => Some string_type
  | Tbool, VBool _ => None
  | Tbool, _ => Some bool_type
  | Tint, VInt z => check_ge fd z
  | Tint, _ => Some int_type
  | TDecimal, VDecimal d => check_decimal fd d
  | TDecimal, _ => Some decimal_type
  | TUUID, VUuid _ => None
  | TUUID, _ => Some uuid_type
  end.

(** [T | None] accepts [None] as it is; constraints apply to other values. *)
Definition check_value (fd : field) (v : value) : option error_type :=
  match v with
  | VNone => if allows_None (ann fd) then None else check_typed fd v
  | _ => check_typed fd v
  end.

(** ** Validation of a payload against a class

    [model_validate] looks only at the keys that are fields of the class
    (other keys are ignored), checks each given value, and fills an absent
    field from its default (a default is not validated); an absent field
    without default is an error. The errors of all fields are reported. *)

Record instance := Instance {
  attrs : gmap string value;        (* the attributes, one per field *)
  fields_set : gset string          (* model_fields_set: fields the payload gave *)
}.

Inductive result :=
  | Valid (obj : instance)
  | Invalid (errors : list error).

Definition field_error (payload : gmap string value) (fd : field) : option error :=
  match payload !! name fd with
  | Some v => Error (name fd) <$> check_value fd v
  | None => if is_required fd then Some (Error (name fd) missing) else None
  end.

Definition field_value (uuid4 : N) (payload : gmap string value) (fd : field)
    : option (string * value) :=
  match payload !! name fd with
  | Some v => Some (name fd, coerce (base_type (ann fd)) v)
  | None => (λ v, (name fd, v)) <$> get (kw_default uuid4) fd
  end.

Definition validation_errors (cls : SQLModel) (payload : gmap string value) : list error :=
  omap (field_error payload) (model_fields cls).

Definition validated_attrs (uuid4 : N) (cls : SQLModel) (payload : gmap string value)
    : gmap string value :=
  list_to_map (omap (field_value uuid4 payload) (model_fields cls)).

Definition given_fields (cls : SQLModel) (payload : gmap string value) : gset string :=
  list_to_set (filter (λ n, is_Some (payload !! n)) (field_names cls)).

(** [uuid4] is the identifier [uuid.uuid4()] draws if a factory runs. *)
Definition model_validate (uuid4 : N) (cls : SQLModel) (payload : gmap string value)
    : result :=
  match validation_errors cls payload with
  | [] => Valid (Instance (validated_attrs uuid4 cls payload) (given_fields cls payload))
  | errs => Invalid errs
  end.

End Validation.

(** ** The public view of an instance

    A response is built by validating the attributes of the returned object
    against the response class and dumping the result: only the fields the
    response class declares are read. *)
Definition serialize (is_email : string → bool) (cls : SQLModel)
    (obj_attrs : gmap string value) : option (gmap string value) :=
  match model_validate is_email 0 cls obj_attrs with
  | Valid o => Some (attrs o)
  | Invalid _ => None
  end.

(** ** Tables *)

Definition lower_ascii (c : Ascii.ascii) : Ascii.ascii :=
  let n := Ascii.nat_of_ascii c in
  if (65 <=? n)%nat && (n <=? 90)%nat then Ascii.ascii_of_nat (n + 32) else c.

Fixpoint lower (s : string) : string :=
  match s with
  | EmptyString => EmptyString
  | String c rest => String (lower_ascii c) (lower rest)
  end.

(** "Database model, database table inferred from class name". *)
Definition tablename (cls : SQLModel) : string := lower (class_name cls).

(** The five persisted entities with their Create, Update and table class. *)
Inductive entity := EUser | EItem | EBeverage | EOrder | EOrderDetail.

Global Instance entity_eq_dec : EqDecision entity.
Proof. solve_decision. Defined.

Definition entities : list entity := [EUser; EItem; EBeverage; EOrder; EOrderDetail].

Definition table_model (e : entity) : SQLModel :=
  match e with
  | EUser => User | EItem => Item | EBeverage => Beverage
  | EOrder => Order | EOrderDetail => OrderDetail
  end.

Definition create_shape (e : entity) : SQLModel :=
  match e with
  | EUser => UserCreate | EItem => ItemCreate | EBeverage => BeverageCreate
  | EOrder => OrderCreate | EOrderDetail => OrderDetailCreate
  end.

Definition update_shape (e : entity) : SQLModel :=
  match e with
  | EUser => UserUpdate | EItem => ItemUpdate | EBeverage => BeverageUpdate
  | EOrder => OrderUpdate | EOrderDetail => OrderDetailUpdate
  end.

Definition table_of (e : entity) : string := tablename (table_model e).

Definition class_named (n : string) : option entity :=
  head (filter (λ e, class_name (table_model e) = n) entities).

(** *** What the declarations ask of the store *)

(** Columns that must be unique: [unique=True] and the primary key. *)
Definition unique_columns (cls : SQLModel) : list string :=
  name <$> filter (λ fd, get kw_unique fd = Some true ∨ get kw_primary_key fd = Some true)
                  (model_fields cls).

(** A column is nullable as [nullable=] says, else when its annotation
    allows [None]; a primary key never is. *)
Definition column_nullable (fd : field) : bool :=
  match get kw_primary_key fd with
  | Some true => false
  | _ => match get kw_nullable fd with
         | Some b => b
         | None => allows_None (ann fd)
         end
  end.

(** [foreign_key="t.id"]: the column and the entity whose table is [t]. *)
Definition foreign_keys (e : entity) : list (string * entity) :=
  omap (λ fd, target ← get kw_foreign_key fd;
              p ← head (filter (λ p, table_of p +:+ ".id" = target) entities);
              Some (name fd, p))
       (model_fields (table_model e)).

(** The relationships of [e] declared with [cascade_delete=True]: the child
    entity and its column that references [e]'s table. *)
Definition cascade_children (e : entity) : list (entity * string) :=
  omap (λ r, if cascade_delete r then
               c ← class_named (rel_target r);
               col ← head (omap (λ '(col, p), if decide (p = e) then Some col else None)
                                (foreign_keys c));
               Some (c, col)
             else None)
       (relationships (table_model e)).

(** *** Rows and the database *)

Definition row_id (r : gmap string value) : option N :=
  match r !! "id" with Some (VUuid u) => Some u | _ => None end.

Definition ids_of (rows : list (gmap string value)) : list N := omap row_id rows.

(** Does column [col] of [r] hold one of [ids]? *)
Definition refers (col : string) (ids : list N) (r : gmap string value) : bool :=
  match r !! col with Some (VUuid u) => bool_decide (u ∈ ids) | _ => false end.

Definition has_id (ids : list N) (r : gmap string value) : bool :=
  match row_id r with Some u => bool_decide (u ∈ ids) | None => false end.

(** Modelled from the spec: the store's NOT NULL check (the store is not in
    models.py): a column that is not nullable holds a value other than
    None. *)
Definition not_null_ok (cls : SQLModel) (r : gmap string value) : bool :=
  forallb (λ fd, match r !! name fd with
                 | Some VNone | None => column_nullable fd
                 | Some _ => true
                 end) (model_fields cls).

(** Modelled from the spec: the store's uniqueness check, "uniqueness
    violation (duplicate email) surfaces as a conflict" (not in models.py):
    two rows collide on a unique column when both hold the same non-null
    value there. *)
Definition same_on (r1 r2 : gmap string value) (col : string) : bool :=
  match r1 !! col, r2 !! col with
  | Some v1, Some v2 => bool_decide (v1 = v2) && negb (bool_decide (v1 = VNone))
  | _, _ => false
  end.

Definition conflicts (cls : SQLModel) (rows : list (gmap string value))
    (r : gmap string value) : bool :=
  existsb (λ r0, existsb (same_on r0 r) (unique_columns cls)) rows.

(** Modelled from the spec: the store's foreign-key check, "every foreign
    key must reference an existing row" (not in models.py). *)
Definition fk_ok (d : gmap string (list (gmap string value))) (e : entity)
    (r : gmap string value) : bool :=
  forallb (λ '(col, p), match r !! col with
                        | Some (VUuid u) => bool_decide (u ∈ ids_of (d !!! table_of p))
                        | Some VNone => true
                        | _ => false
                        end) (foreign_keys e).

Definition referential_integrity (d : gmap string (list (gmap string value))) : bool :=
  forallb (λ e, forallb (fk_ok d e) (d !!! table_of e)) entities.

(** The first row with identifier [id], with the rows before and after it. *)
Fixpoint split_at_id (id : N) (rows : list (gmap string value))
    : option (list (gmap string value) * gmap string value * list (gmap string value)) :=
  match rows with
  | [] => None
  | r :: rest =>
      if decide (row_id r = Some id) then Some ([], r, rest)
      else '(before, r0, after) ← split_at_id id rest; Some (r :: before, r0, after)
  end.

(** ** Operations of the store

    Modelled from the spec: the handlers and the persistence store that
    create, update and delete rows are not in models.py. Spec 3 and 4.1:
    rows are created via validated Create shapes, mutated via partial
    Update shapes (unset fields left unchanged), and deleted explicitly or
    via cascade from a parent; a duplicate unique field is a conflict, a
    dangling foreign key a reference error. The constraints and cascades
    are those the declarations above state. *)

Inductive store_error :=
  | validation_error (errors : list error)
  | conflict
  | not_null_violation
  | reference_error
  | not_found
  | cascade_cycle.

Inductive outcome :=
  | Ok (d : gmap string (list (gmap string value)))
  | Rejected (err : store_error).

(** Modelled from the spec: applying a validated Update instance to a row
    (not in models.py). Spec 4.1: "absent fields are no-ops": the fields
    the payload set, among the columns of the table class, overwrite the
    row's; every other attribute of the row is kept. *)
Definition sqlmodel_update (cls : SQLModel) (r : gmap string value) (obj : instance)
    : gmap string value :=
  filter (λ kv, kv.1 ∈ fields_set obj ∧ kv.1 ∈ field_names cls) (attrs obj) ∪ r.

(** Modelled from the spec: cascade-delete, "removing a parent row removes
    dependent rows" (the delete path is not in models.py). The rows of [e]
    with an identifier in [ids] are removed after the rows that reference
    them through a relationship declared with [cascade_delete=True],
    recursively; [depth] bounds the nesting of relationships. *)
Fixpoint delete_rows (depth : nat) (e : entity) (ids : list N)
    (d : gmap string (list (gmap string value)))
    : option (gmap string (list (gmap string value))) :=
  match depth with
  | 0 => None
  | S k =>
      d' ← foldl (λ acc '(c, col),
                    d0 ← acc;
                    delete_rows k c (ids_of (filter (λ r, refers col ids r = true)
                                                    (d0 !!! table_of c))) d0)
                 (Some d) (cascade_children e);
      Some (<[table_of e := filter (λ r, has_id ids r = false) (d' !!! table_of e)]> d')
  end.

(** Modelled from the spec: the commit of a change (the store is not in
    models.py). The store either enforces foreign keys ([enforce_fk]: a
    change that leaves a dangling reference is refused, "a reference
    error") or does not. *)
Definition checked (enforce_fk : bool) (d : gmap string (list (gmap string value)))
    : outcome :=
  if enforce_fk && negb (referential_integrity d) then Rejected reference_error else Ok d.

(** Modelled from the spec: the insertion of a row (the store is not in
    models.py), refused on a null in a NOT NULL column or on a repeated
    unique value. *)
Definition insert_row (enforce_fk : bool) (e : entity) (r : gmap string value)
    (d : gmap string (list (gmap string value))) : outcome :=
  if negb (not_null_ok (table_model e) r) then Rejected not_null_violation
  else if conflicts (table_model e) (d !!! table_of e) r then Rejected conflict
  else checked enforce_fk (<[table_of e := ((d !!! table_of e) ++ [r])%list]> d).

(** Modelled from the spec: creation (the handler is not in models.py),
    "rows are created via validated Create shapes": the payload is
    validated against the Create shape, the row is the table class
    validated from the instance's attributes and the attributes the server
    adds ([extra]: the owner, the hashed password). *)
Definition create (is_email : string → bool) (enforce_fk : bool) (e : entity) (uuid4 : N)
    (payload extra : gmap string value) (d : gmap string (list (gmap string value)))
    : outcome :=
  match model_validate is_email uuid4 (create_shape e) payload with
  | Invalid errs => Rejected (validation_error errs)
  | Valid obj =>
      match model_validate is_email uuid4 (table_model e) (extra ∪ attrs obj) with
      | Invalid errs => Rejected (validation_error errs)
      | Valid r => insert_row enforce_fk e (attrs r) d
      end
  end.

(** Modelled from the spec: update (the handler is not in models.py), rows
    are "mutated via partial Update shapes (all fields optional, unset
    fields left unchanged)": the payload is validated against the Update
    shape and applied to the row with identifier [id]. *)
Definition update (is_email : string → bool) (enforce_fk : bool) (e : entity) (id : N)
    (payload : gmap string value) (d : gmap string (list (gmap string value)))
    : outcome :=
  match split_at_id id (d !!! table_of e) with
  | None => Rejected not_found
  | Some (before, r, after) =>
      match model_validate is_email 0 (update_shape e) payload with
      | Invalid errs => Rejected (validation_error errs)
      | Valid obj =>
          let r' := sqlmodel_update (table_model e) r obj in
          if negb (not_null_ok (table_model e) r') then Rejected not_null_violation
          else if conflicts (table_model e) (before ++ after)%list r' then Rejected conflict
          else checked enforce_fk (<[table_of e := (before ++ r' :: after)%list]> d)
      end
  end.

(** Modelled from the spec: delete (the handler is not in models.py), rows
    are "deleted explicitly or via cascade from a parent". *)
Definition delete (enforce_fk : bool) (e : entity) (id : N)
    (d : gmap string (list (gmap string value))) : outcome :=
  match split_at_id id (d !!! table_of e) with
  | None => Rejected not_found
  | Some _ =>
      match delete_rows (length entities) e [id] d with
      | None => Rejected cascade_cycle
      | Some d' => checked enforce_fk d'
      end
  end.

(** Modelled from the spec: the operations a client can ask of the store
    (the handlers are not in models.py). *)
Inductive op :=
  | Create (e : entity) (uuid4 : N) (payload extra : gmap string value)
  | Update (e : entity) (id : N) (payload : gmap string value)
  | Delete (e : entity) (id : N).

(** Modelled from the spec: one operation on the store. *)
Definition step (is_email : string → bool) (enforce_fk : bool)
    (d : gmap string (list (gmap string value))) (o : op) : outcome :=
  match o with
  | Create e uuid4 payload extra => create is_email enforce_fk e uuid4 payload extra d
  | Update e id payload => update is_email enforce_fk e id payload d
  | Delete e id => delete enforce_fk e id d
  end.

(** Modelled from the spec: a sequence of operations on the store; a
    rejected operation leaves the database as it was. *)
Definition run (is_email : string → bool) (enforce_fk : bool) (ops : list op)
    (d : gmap string (list (gmap string value))) : gmap string (list (gmap string value)) :=
  foldl (λ d0 o, match step is_email enforce_fk d0 o with
                 | Ok d1 => d1
                 | Rejected _ => d0
                 end) d ops.

(** Modelled from the spec: self-registration (the handler is not in
    models.py). Spec 3: "rows are created via validated Create shapes":
    the registration payload is validated against [UserRegister], its
    attributes against [UserCreate], and the row against [User] with the
    hashed password added. *)
Definition register (is_email : string → bool) (get_password_hash : string → string)
    (uuid4 : N) (payload : gmap string value) : result :=
  match model_validate is_email uuid4 UserRegister payload with
  | Invalid errs => Invalid errs
  | Valid reg =>
      match model_validate is_email uuid4 UserCreate (attrs reg) with
      | Invalid errs => Invalid errs
      | Valid uc =>
          let hashed := match attrs uc !! "password" with
                        | Some (VStr pw) => VStr (get_password_hash pw)
                        | _ => VNone
                        end in
          model_validate is_email uuid4 User (<["hashed_password" := hashed]> (attrs uc))
      end
  end.


(** ** Properties of a database *)

(** Every stored OrderDetail has an int quantity of at least 1. *)
Definition quantities_positive (d : gmap string (list (gmap string value))) : Prop :=
  ∀ r, r ∈ d !!! "orderdetail" →
       ∃ q, r !! "quantity" = Some (VInt q) ∧ (1 ≤ q)%Z.


(** Every stored row has an identifier. *)
Definition rows_have_ids (d : gmap string (list (gmap string value))) : Prop :=
  ∀ e r, r ∈ d !!! table_of e → is_Some (row_id r).

(** The identifiers of each table are pairwise distinct. *)
Definition ids_unique (d : gmap string (list (gmap string value))) : Prop :=
  ∀ e, NoDup (ids_of (d !!! table_of e)).

(** The identifiers of the rows whose column [col] references [uid]. *)
Definition owned_by (col : string) (uid : N) (rows : list (gmap string value)) : list N :=
  ids_of (filter (λ r, refers col [uid] r = true) rows).

(** Column [col] of [r] references an existing row of [p], or is None. *)
Definition fk_holds (d : gmap string (list (gmap string value))) (r : gmap string value)
    (col : string) (p : entity) : Prop :=
  match r !! col with
  | Some (VUuid u) => u ∈ ids_of (d !!! table_of p)
  | Some VNone => True
  | _ => False
  end.

(** The database an operation leaves, if it is accepted, and the values of
    one column of a table, row by row. *)
Definition database_of (o : outcome) : option (gmap string (list (gmap string value))) :=
  match o with Ok d => Some d | Rejected _ => None end.

Definition column (t col : string) (d : gmap string (list (gmap string value)))
    : list (option value) :=
  (λ r : gmap string value, r !! col) <$> (d !!! t).

(** ** Sample data

    Two users; the first owns an item, the second an order with one order
    detail for that item. *)
Definition shop : gmap string (list (gmap string value)) :=
  run (λ _, true) true [
    Create EUser 1 {[ "email" := VStr "ann@x.org"; "password" := VStr "12345678" ]}
                   {[ "hashed_password" := VStr "$2b$12$abc" ]};
    Create EUser 2 {[ "email" := VStr "bob@x.org"; "password" := VStr "abcdefgh" ]}
                   {[ "hashed_password" := VStr "$2b$12$def" ]};
    Create EItem 10 {[ "title" := VStr "tea" ]} {[ "owner_id" := VUuid 1 ]};
    Create EOrder 20 {[ "user_id" := VUuid 2 ]} ∅;
    Create EOrderDetail 30
      {[ "order_id" := VUuid 20; "item_id" := VUuid 10; "quantity" := VInt 1 ]} ∅
  ] ∅.

(** ** Further readings of the declarations *)

(** The Public shape of each entity. *)
Definition public_shape (e : entity) : SQLModel :=
  match e with
  | EUser => UserPublic | EItem => ItemPublic | EBeverage => BeveragePublic
  | EOrder => OrderPublic | EOrderDetail => OrderDetailPublic
  end.

(** The classes declared above. *)
Definition classes : list SQLModel := [
  UserBase; UserCreate; UserRegister; UserUpdate; UserUpdateMe; UpdatePassword;
  User; UserPublic;
  ItemBase; ItemCreate; ItemUpdate; Item; ItemPublic;
  BeverageBase; BeverageCreate; BeverageUpdate; Beverage; BeveragePublic;
  OrderBase; OrderCreate; OrderUpdate; Order; OrderPublic;
  OrderDetailBase; OrderDetailCreate; OrderDetailUpdate; OrderDetail; OrderDetailPublic;
  Message; Token; TokenPayload; NewPassword
].

(** The fields that hold a password, by class. *)
Definition password_fields : list (SQLModel * string) := [
  (UserCreate, "password"); (UserRegister, "password"); (UserUpdate, "password");
  (UpdatePassword, "current_password"); (UpdatePassword, "new_password");
  (NewPassword, "new_password")
].
Global Instance pytype_eq_dec : EqDecision pytype.
Proof. solve_decision. Defined.
Global Instance annotation_eq_dec : EqDecision annotation.
Proof. solve_decision. Defined.

(** Two declarations that check a value alike: the same annotation and the
    same bounds. *)
Definition same_checks (fd fd' : field) : bool :=
  bool_decide (ann fd = ann fd' ∧
               get kw_min_length fd = get kw_min_length fd' ∧
               get kw_max_length fd = get kw_max_length fd' ∧
               get kw_ge fd = get kw_ge fd' ∧
               get kw_max_digits fd = get kw_max_digits fd' ∧
               get kw_decimal_places fd = get kw_decimal_places fd').

(** The declared default of a field, if any, passes the checks of the field
    (no default is an email address, so the email grammar is not asked). *)
Definition default_passes (fd : field) : bool :=
  match get (kw_default 0) fd with
  | Some v => bool_decide (check_value (λ _, false) fd v = None)
  | None => true
  end.

(** Every field of [dst] is declared in [src] with the same checks, or is
    absent from [src] and has a default: the attributes of a valid [src]
    instance can be validated against [dst]. *)
Definition revalidates (src dst : SQLModel) : bool :=
  forallb (λ fd',
             existsb (λ fd, bool_decide (name fd = name fd') && same_checks fd fd'
                            && default_passes fd) (model_fields src)
             || (bool_decide (name fd' ∉ field_names src) && negb (is_required fd')))
          (model_fields dst).
(** The relationship at the other end of [r], declared in the class that
    [r] targets: it is named by [back_populates], targets [e] back, names [r]
    in turn, and is a list on exactly one side. *)
Definition relationship_paired (e : entity) (r : relationship) : bool :=
  match class_named (rel_target r) with
  | Some t =>
      existsb (λ r', bool_decide (rel_name r' = back_populates r ∧
                                  rel_target r' = class_name (table_model e) ∧
                                  back_populates r' = rel_name r ∧
                                  rel_many r' = negb (rel_many r)))
              (relationships (table_model t))
  | None => false
  end.

(** * Facts about validation *)

Section ValidationFacts.

Variable is_email : string → bool.

Lemma omap_nil_iff {A B} (f : A → option B) (l : list A) :
  omap f l = [] ↔ ∀ x, x ∈ l → f x = None.
Proof.
  induction l as [|a l IH]; simpl.
  - split; [intros _ x Hx; inversion Hx | done].
  - destruct (f a) eqn:Ha.
    + split; [done | intros H; specialize (H a (list_elem_of_here _ _)); congruence].
    + rewrite IH. split.
      * intros H x [->|Hx]%elem_of_cons; auto.
      * intros H x Hx. apply H. by right.
Qed.

Lemma model_validate_Valid uuid4 cls p o :
  model_validate is_email uuid4 cls p = Valid o ↔
  validation_errors is_email cls p = [] ∧
  o = Instance (validated_attrs uuid4 cls p) (given_fields cls p).
Proof.
  unfold model_validate. destruct (validation_errors is_email cls p); split.
  - intros [= <-]. done.
  - intros [_ ->]. done.
  - done.
  - intros [? _]. done.
Qed.

Lemma model_validate_Invalid uuid4 cls p errs :
  model_validate is_email uuid4 cls p = Invalid errs ↔
  validation_errors is_email cls p = errs ∧ errs ≠ [].
Proof.
  unfold model_validate. destruct (validation_errors is_email cls p); split.
  - done.
  - intros [<- ?]. done.
  - intros [= <-]. done.
  - intros [-> _]. done.
Qed.

(** A payload is accepted exactly when no field reports an error. *)
Lemma accepted_iff uuid4 cls p :
  (∃ o, model_validate is_email uuid4 cls p = Valid o) ↔
  ∀ fd, fd ∈ model_fields cls → field_error is_email p fd = None.
Proof.
  unfold validation_errors. rewrite <- omap_nil_iff. split.
  - intros [o Ho]. by apply model_validate_Valid in Ho as [? _].
  - intros H. eexists. apply model_validate_Valid. done.
Qed.

Lemma valid_field_error uuid4 cls p o fd :
  model_validate is_email uuid4 cls p = Valid o →
  fd ∈ model_fields cls → field_error is_email p fd = None.
Proof. intros Ho Hfd. eapply (proj1 (accepted_iff uuid4 cls p)); eauto. Qed.

(** The error of one field rejects the whole payload. *)
Lemma field_error_rejects uuid4 cls p fd e :
  fd ∈ model_fields cls → field_error is_email p fd = Some e →
  ∃ errs, model_validate is_email uuid4 cls p = Invalid errs ∧ e ∈ errs.
Proof.
  intros Hfd He. exists (validation_errors is_email cls p).
  assert (e ∈ validation_errors is_email cls p) as Hin.
  { unfold validation_errors. apply list_elem_of_omap. eauto. }
  split; [|done]. apply model_validate_Invalid. split; [done|].
  intros Hnil. rewrite Hnil in Hin. inversion Hin.
Qed.

Lemma field_value_name uuid4 p fd kv :
  field_value uuid4 p fd = Some kv → kv.1 = name fd.
Proof.
  unfold field_value. destruct (p !! name fd); [by intros [= <-]|].
  destruct (get (kw_default uuid4) fd); simpl; [by intros [= <-] | done].
Qed.

Lemma attrs_of_fields_None uuid4 p (fds : list field) n :
  n ∉ name <$> fds →
  (list_to_map (omap (field_value uuid4 p) fds) : gmap string value) !! n = None.
Proof.
  intros Hn. apply not_elem_of_list_to_map_1. intros Hin. apply Hn.
  apply list_elem_of_fmap in Hin as [kv [-> Hkv]].
  apply list_elem_of_omap in Hkv as [fd [Hfd Hv]].
  apply field_value_name in Hv as ->. by apply list_elem_of_fmap_2.
Qed.

Lemma attrs_of_fields_lookup uuid4 p (fds : list field) fd :
  NoDup (name <$> fds) → fd ∈ fds →
  (list_to_map (omap (field_value uuid4 p) fds) : gmap string value) !! name fd
  = snd <$> field_value uuid4 p fd.
Proof.
  induction fds as [|g fds IH]; [intros _ H; inversion H|].
  rewrite fmap_cons. intros [Hg Hnd]%NoDup_cons [->|Hin]%elem_of_cons.
  - simpl. destruct (field_value uuid4 p g) as [[k v]|] eqn:Hv.
    + pose proof (field_value_name _ _ _ _ Hv) as Hk. simpl in Hk. subst k.
      simpl. by rewrite lookup_insert_eq.
    + simpl. by apply attrs_of_fields_None.
  - assert (name g ≠ name fd) as Hne.
    { intros Heq. apply Hg. rewrite Heq. by apply list_elem_of_fmap_2. }
    simpl. destruct (field_value uuid4 p g) as [[k v]|] eqn:Hv.
    + pose proof (field_value_name _ _ _ _ Hv) as Hk. simpl in Hk. subst k.
      simpl. rewrite lookup_insert_ne by done. by apply IH.
    + by apply IH.
Qed.

Lemma validated_attrs_lookup uuid4 cls p fd :
  NoDup (field_names cls) → fd ∈ model_fields cls →
  validated_attrs uuid4 cls p !! name fd = snd <$> field_value uuid4 p fd.
Proof. apply attrs_of_fields_lookup. Qed.

Lemma validated_attrs_None uuid4 cls p n :
  n ∉ field_names cls → validated_attrs uuid4 cls p !! n = None.
Proof. apply attrs_of_fields_None. Qed.

Lemma elem_of_given_fields cls p n :
  n ∈ given_fields cls p ↔ n ∈ field_names cls ∧ is_Some (p !! n).
Proof.
  unfold given_fields. rewrite elem_of_list_to_set, list_elem_of_filter. tauto.
Qed.

(** Validation reads the payload only at the fields of the class. *)
Lemma model_validate_ext uuid4 cls p1 p2 :
  (∀ n, n ∈ field_names cls → p1 !! n = p2 !! n) →
  model_validate is_email uuid4 cls p1 = model_validate is_email uuid4 cls p2.
Proof.
  intros Hext.
  assert (validation_errors is_email cls p1 = validation_errors is_email cls p2) as He.
  { unfold validation_errors. apply list_omap_ext, Forall2_same_length_lookup.
    split; [done|]. intros i fd fd' H1 H2. assert (fd' = fd) as -> by congruence.
    unfold field_error. rewrite Hext; [done|].
    apply list_elem_of_fmap_2, list_elem_of_lookup. eauto. }
  assert (validated_attrs uuid4 cls p1 = validated_attrs uuid4 cls p2) as Ha.
  { unfold validated_attrs. f_equal. apply list_omap_ext, Forall2_same_length_lookup.
    split; [done|]. intros i fd fd' H1 H2. assert (fd' = fd) as -> by congruence.
    unfold field_value. rewrite Hext; [done|].
    apply list_elem_of_fmap_2, list_elem_of_lookup. eauto. }
  assert (given_fields cls p1 = given_fields cls p2) as Hg.
  { apply set_eq. intros n. rewrite !elem_of_given_fields.
    split; intros [Hn Hs]; (split; [done|]); [rewrite <- Hext | rewrite Hext]; done. }
  unfold model_validate. rewrite He, Ha, Hg. done.
Qed.

End ValidationFacts.

(** * Facts about the checks of one field *)

Section FieldChecks.

Variable is_email : string → bool.

Lemma check_length_None fd s :
  check_length fd s = None ↔
  (∀ lo, get kw_min_length fd = Some lo → lo ≤ String.length s) ∧
  (∀ hi, get kw_max_length fd = Some hi → String.length s ≤ hi).
Proof.
  unfold check_length.
  destruct (get kw_min_length fd) as [lo|], (get kw_max_length fd) as [hi|].
  all: repeat match goal with
       | |- context [(?a <? ?b)%nat] => destruct (Nat.ltb_spec a b)
       end.
  all: split;
    [ try done; intros _; split; intros ? ?; simplify_eq; lia
    | intros [H1 H2]; try done; exfalso;
      try specialize (H1 _ eq_refl); try specialize (H2 _ eq_refl); lia ].
Qed.

Lemma check_length_short fd s lo :
  get kw_min_length fd = Some lo → String.length s < lo →
  check_length fd s = Some string_too_short.
Proof.
  intros Hlo Hlt. unfold check_length. rewrite Hlo.
  apply Nat.ltb_lt in Hlt. rewrite Hlt. by destruct (get kw_max_length fd).
Qed.

Lemma check_value_str fd s :
  base_type (ann fd) = Tstr → check_value is_email fd (VStr s) = check_length fd s.
Proof. intros Ht. unfold check_value, check_typed. by rewrite Ht. Qed.

Lemma check_value_int fd z :
  base_type (ann fd) = Tint → check_value is_email fd (VInt z) = check_ge fd z.
Proof. intros Ht. unfold check_value, check_typed. by rewrite Ht. Qed.


Lemma check_ge_None fd z :
  check_ge fd z = None ↔ ∀ lo, get kw_ge fd = Some lo → (lo ≤ z)%Z.
Proof.
  unfold check_ge. destruct (get kw_ge fd) as [lo|].
  - destruct (Z.ltb_spec z lo); split; try done.
    + intros H'. specialize (H' _ eq_refl). lia.
    + intros _ ? [= <-]. done.
  - split; [intros _ ? [=] | done].
Qed.

(** A field whose annotation does not allow [None] rejects it. *)
Lemma check_value_None_plain fd :
  allows_None (ann fd) = false → check_value is_email fd VNone ≠ None.
Proof.
  intros Ha. unfold check_value, check_typed. rewrite Ha.
  by destruct (base_type (ann fd)).
Qed.


(** Every reported error comes from a field of the class and carries its name. *)
Lemma validation_error_loc cls p e :
  e ∈ validation_errors is_email cls p →
  ∃ fd, fd ∈ model_fields cls ∧ field_error is_email p fd = Some e ∧ loc e = name fd.
Proof.
  unfold validation_errors. intros [fd [Hfd He]]%list_elem_of_omap.
  exists fd. split; [done|]. split; [done|].
  unfold field_error in He. destruct (p !! name fd).
  - destruct (check_value is_email fd v); simpl in He; [by injection He as <- | done].
  - destruct (is_required fd); [by injection He as <- | done].
Qed.

End FieldChecks.

(** [fd ∈ model_fields cls] for a declaration written out in full. *)
Ltac in_fields :=
  match goal with
  | |- ?fd ∈ ?fs =>
      let l := eval vm_compute in fs in
      change (fd ∈ l); repeat constructor
  end.

(** The fields of a class of models.py have distinct names. *)
Ltac distinct_names := apply (bool_decide_unpack _); vm_compute; exact I.

(** Case analysis on the fields of a class. *)
Ltac each_field H :=
  match type of H with
  | ?fd ∈ ?fs =>
      let l := eval vm_compute in fs in
      change (fd ∈ l) in H;
      repeat (apply elem_of_cons in H as [->|H]);
      [..|by apply elem_of_nil in H]
  end.

(** * The claims *)

(** ** Titles and names (ItemBase, BeverageBase, Item) *)

Section Titles.

Variable is_email : string → bool.

(** A string field given a string of length [0] under [min_length=1]. *)
Lemma short_string_rejected uuid4 cls fd (p : gmap string value) s lo :
  fd ∈ model_fields cls → base_type (ann fd) = Tstr →
  get kw_min_length fd = Some lo →
  p !! name fd = Some (VStr s) → String.length s < lo →
  ∃ errs, model_validate is_email uuid4 cls p = Invalid errs ∧
          Error (name fd) string_too_short ∈ errs.
Proof.
  intros Hfd Ht Hlo Hp Hlen. apply field_error_rejects with (fd := fd); [done|].
  unfold field_error. rewrite Hp, check_value_str by done.
  by rewrite (check_length_short fd s lo).
Qed.

(** A string field given a string within its declared bounds reports no error. *)
Lemma string_in_bounds_accepted fd (p : gmap string value) s :
  base_type (ann fd) = Tstr → p !! name fd = Some (VStr s) →
  (∀ lo, get kw_min_length fd = Some lo → lo ≤ String.length s) →
  (∀ hi, get kw_max_length fd = Some hi → String.length s ≤ hi) →
  field_error is_email p fd = None.
Proof.
  intros Ht Hp Hlo Hhi. unfold field_error. rewrite Hp, check_value_str by done.
  by rewrite (proj2 (check_length_None fd s)).
Qed.

(** C7: a Create payload whose title (ItemCreate) or name (BeverageCreate)
    has fewer than 1 character is rejected by validation with a
    too-short error on that field; a title or name of 1 to 255 characters
    raises no error on that field. *)
Theorem C7_create_title_name_length uuid4 (p : gmap string value) (s : string) :
  (p !! "title" = Some (VStr s) → String.length s < 1 →
     ∃ errs, model_validate is_email uuid4 ItemCreate p = Invalid errs ∧
             Error "title" string_too_short ∈ errs) ∧
  (p !! "name" = Some (VStr s) → String.length s < 1 →
     ∃ errs, model_validate is_email uuid4 BeverageCreate p = Invalid errs ∧
             Error "name" string_too_short ∈ errs) ∧
  (p !! "title" = Some (VStr s) → 1 ≤ String.length s ≤ 255 →
     ∀ e, e ∈ validation_errors is_email ItemCreate p → loc e ≠ "title") ∧
  (p !! "name" = Some (VStr s) → 1 ≤ String.length s ≤ 255 →
     ∀ e, e ∈ validation_errors is_email BeverageCreate p → loc e ≠ "name").
Proof.
  repeat split.
  - intros Hp Hlen.
    apply (short_string_rejected uuid4 ItemCreate
             (Field "title" (Plain Tstr) [min_length 1; max_length 255]) p s 1);
      try done. in_fields.
  - intros Hp Hlen.
    apply (short_string_rejected uuid4 BeverageCreate
             (Field "name" (Plain Tstr) [min_length 1; max_length 255]) p s 1);
      try done. in_fields.
  - intros Hp Hlen e He Hloc.
    apply validation_error_loc in He as (fd & Hfd & Hfe & Hname).
    each_field Hfd; simpl in Hname; try congruence.
    rewrite (string_in_bounds_accepted _ p s) in Hfe; try done;
      intros ? Hb; vm_compute in Hb; simplify_eq; lia.
  - intros Hp Hlen e He Hloc.
    apply validation_error_loc in He as (fd & Hfd & Hfe & Hname).
    each_field Hfd; simpl in Hname; try congruence.
    rewrite (string_in_bounds_accepted _ p s) in Hfe; try done;
      intros ? Hb; vm_compute in Hb; simplify_eq; lia.
Qed.

(** C5: the table class Item re-declares title with [max_length=255] only:
    a payload with an empty title and an owner is accepted by Item (no
    payload with an empty title gets a title error from Item), while
    ItemCreate rejects every payload with an empty title. *)
Theorem C5_item_table_accepts_empty_title uuid4 :
  head (filter (λ fd, name fd = "title") (model_fields Item))
    = Some (Field "title" (Plain Tstr) [max_length 255]) ∧
  (∀ owner, ∃ o,
     model_validate is_email uuid4 Item
       {[ "title" := VStr ""; "owner_id" := VUuid owner ]} = Valid o ∧
     attrs o !! "title" = Some (VStr "")) ∧
  (∀ p : gmap string value, p !! "title" = Some (VStr "") →
     (∀ e, e ∈ validation_errors is_email Item p → loc e ≠ "title") ∧
     ∃ errs, model_validate is_email uuid4 ItemCreate p = Invalid errs ∧
             Error "title" string_too_short ∈ errs).
Proof.
  split; [reflexivity|]. split.
  - intros owner. eexists. split; [vm_compute; reflexivity|]. by vm_compute.
  - intros p Hp. split.
    + intros e He Hloc.
      apply validation_error_loc in He as (fd & Hfd & Hfe & Hname).
      each_field Hfd; simpl in Hname; try congruence.
      rewrite (string_in_bounds_accepted _ p "") in Hfe; try done;
        intros ? Hb; vm_compute in Hb; simplify_eq; simpl; lia.
    + apply (short_string_rejected uuid4 ItemCreate
               (Field "title" (Plain Tstr) [min_length 1; max_length 255]) p "" 1);
        try done; [in_fields | simpl; lia].
Qed.

End Titles.

Lemma C7_create_title_name_length_witness :
  (∃ errs, model_validate (λ _, true) 0 ItemCreate {[ "title" := VStr "" ]} = Invalid errs ∧
           Error "title" string_too_short ∈ errs) ∧
  (∀ e, e ∈ validation_errors (λ _, true) BeverageCreate
              {[ "name" := VStr "cola"; "inventory" := VInt 3 ]} → loc e ≠ "name").
Proof.
  split.
  - apply (C7_create_title_name_length (λ _, true) 0 {[ "title" := VStr "" ]} "");
      [reflexivity | simpl; lia].
  - apply (C7_create_title_name_length (λ _, true) 0
             {[ "name" := VStr "cola"; "inventory" := VInt 3 ]} "cola");
      [reflexivity | simpl; lia].
Defined.

Lemma C5_item_table_accepts_empty_title_witness :
  (∀ e, e ∈ validation_errors (λ _, true) Item {[ "title" := VStr "" ]} → loc e ≠ "title") ∧
  ∃ errs, model_validate (λ _, true) 0 ItemCreate {[ "title" := VStr "" ]} = Invalid errs ∧
          Error "title" string_too_short ∈ errs.
Proof.
  apply (C5_item_table_accepts_empty_title (λ _, true) 0). reflexivity.
Defined.

(** ** The token payload *)

Section Tokens.

Variable is_email : string → bool.

(** C6 (as the code has it): [sub] is declared [str | None = None]. A
    TokenPayload is accepted exactly when sub is absent, None or a string,
    and the instance then holds the given sub, or None when it is absent. *)
Theorem C6_token_payload_sub_optional uuid4 (p : gmap string value) :
  (∃ o, model_validate is_email uuid4 TokenPayload p = Valid o ∧
        attrs o !! "sub" = Some (from_option id VNone (p !! "sub")))
  ↔ (p !! "sub" = None ∨ p !! "sub" = Some VNone ∨ ∃ s, p !! "sub" = Some (VStr s)).
Proof.
  set (fd := Field "sub" (OrNone Tstr) [default VNone]).
  assert (fd ∈ model_fields TokenPayload) as Hfd by (subst fd; in_fields).
  split.
  - intros (o & Ho & _). pose proof (valid_field_error _ _ _ _ _ _ Ho Hfd) as He.
    unfold field_error in He. simpl name in He.
    destruct (p !! "sub") as [v|]; [|by left]. right.
    destruct v; try (by left); try (by right; eexists); by vm_compute in He.
  - intros Hsub.
    assert (field_error is_email p fd = None) as He.
    { unfold field_error. simpl name.
      destruct Hsub as [-> | [-> | [s ->]]]; reflexivity. }
    assert (∃ o, model_validate is_email uuid4 TokenPayload p = Valid o) as [o Ho].
    { apply accepted_iff. intros fd' Hfd'. each_field Hfd'. exact He. }
    exists o. split; [done|].
    apply model_validate_Valid in Ho as [_ ->]. simpl attrs.
    pose proof (validated_attrs_lookup uuid4 TokenPayload p fd) as Hl.
    simpl name in Hl. rewrite Hl; [|distinct_names|done].
    unfold field_value. simpl name.
    destruct Hsub as [-> | [-> | [s ->]]]; reflexivity.
Qed.

End Tokens.

Lemma C6_token_payload_sub_optional_witness :
  ∃ o, model_validate (λ _, true) 0 TokenPayload {[ "sub" := VStr "42" ]} = Valid o ∧
       attrs o !! "sub" = Some (VStr "42").
Proof.
  destruct (proj2 (C6_token_payload_sub_optional (λ _, true) 0 {[ "sub" := VStr "42" ]}))
    as (o & Ho & Ha).
  - right. right. exists "42". reflexivity.
  - exists o. split; [exact Ho|]. rewrite Ha. reflexivity.
Defined.

(** C6, counterexample to the sentence as the spec has it: the empty payload is a valid
    TokenPayload, whose sub is None. *)
Lemma C6_counterexample :
  ∃ o, model_validate (λ _, true) 0 TokenPayload ∅ = Valid o ∧
       attrs o !! "sub" = Some VNone.
Proof. eexists. split; [vm_compute; reflexivity|]. by vm_compute. Qed.

(** ** Prices *)

Section Prices.

Variable is_email : string → bool.

Lemma check_decimal_digits_neg fd d :
  check_decimal_digits fd (Decimal_neg d) = check_decimal_digits fd d.
Proof.
  unfold check_decimal_digits, Decimal_normalize, Decimal_neg; simpl.
  by destruct (strip_zeros (dec_digits d)).
Qed.

(** Without a declared lower bound the check of a Decimal ignores its sign. *)
Lemma check_value_sign fd d :
  (base_type (ann fd) = TDecimal → get kw_ge fd = None) →
  check_value is_email fd (VDecimal (Decimal_neg d)) = check_value is_email fd (VDecimal d).
Proof.
  intros Hge. unfold check_value, check_typed.
  destruct (base_type (ann fd)) eqn:Ht; simpl coerce; try done.
  unfold check_decimal. rewrite check_decimal_digits_neg, Hge; done.
Qed.

Lemma validation_errors_sign cls f (p : gmap string value) d :
  (∀ fd, fd ∈ model_fields cls → base_type (ann fd) = TDecimal → get kw_ge fd = None) →
  validation_errors is_email cls (<[f := VDecimal (Decimal_neg d)]> p)
  = validation_errors is_email cls (<[f := VDecimal d]> p).
Proof.
  intros Hge. unfold validation_errors.
  apply list_omap_ext, Forall2_same_length_lookup. split; [done|].
  intros i fd fd' H1 H2. assert (fd' = fd) as -> by congruence.
  assert (fd ∈ model_fields cls) as Hfd by (apply list_elem_of_lookup; eauto).
  unfold field_error. destruct (decide (f = name fd)) as [->|Hne].
  - rewrite !lookup_insert_eq. f_equal. apply check_value_sign. auto.
  - by rewrite !lookup_insert_ne.
Qed.

Lemma accepted_sign uuid4 cls f (p : gmap string value) d :
  (∀ fd, fd ∈ model_fields cls → base_type (ann fd) = TDecimal → get kw_ge fd = None) →
  (∃ o, model_validate is_email uuid4 cls (<[f := VDecimal d]> p) = Valid o) ↔
  (∃ o, model_validate is_email uuid4 cls (<[f := VDecimal (Decimal_neg d)]> p) = Valid o).
Proof.
  intros Hge.
  split; intros [o [He _]%model_validate_Valid]; eexists; apply model_validate_Valid;
    (split; [|reflexivity]).
  - by rewrite validation_errors_sign.
  - by rewrite <- validation_errors_sign.
Qed.

(** C2 (as the code has it): no price field declares a lower bound; the
    price fields are checked for their digits only, so a payload is
    accepted with a Decimal [d] exactly when it is accepted with [-d],
    for the Create shape, the Update shape and the table class of every
    entity. *)
Theorem C2_price_sign_not_checked uuid4 (e : entity) f (p : gmap string value) d :
  (∀ cls fd, cls ∈ [create_shape e; update_shape e; table_model e] →
     fd ∈ model_fields cls → base_type (ann fd) = TDecimal → get kw_ge fd = None) ∧
  ((∃ o, model_validate is_email uuid4 (create_shape e) (<[f := VDecimal d]> p) = Valid o) ↔
   (∃ o, model_validate is_email uuid4 (create_shape e)
           (<[f := VDecimal (Decimal_neg d)]> p) = Valid o)) ∧
  ((∃ o, model_validate is_email uuid4 (update_shape e) (<[f := VDecimal d]> p) = Valid o) ↔
   (∃ o, model_validate is_email uuid4 (update_shape e)
           (<[f := VDecimal (Decimal_neg d)]> p) = Valid o)) ∧
  ((∃ o, model_validate is_email uuid4 (table_model e) (<[f := VDecimal d]> p) = Valid o) ↔
   (∃ o, model_validate is_email uuid4 (table_model e)
           (<[f := VDecimal (Decimal_neg d)]> p) = Valid o)).
Proof.
  assert (∀ cls fd, cls ∈ [create_shape e; update_shape e; table_model e] →
     fd ∈ model_fields cls → base_type (ann fd) = TDecimal → get kw_ge fd = None) as Hge.
  { intros cls fd Hcls Hfd.
    repeat (apply elem_of_cons in Hcls as [->|Hcls]); [..|by apply elem_of_nil in Hcls];
      destruct e; each_field Hfd; by vm_compute. }
  split; [exact Hge|].
  repeat split; apply accepted_sign; intros fd; apply Hge; set_solver.
Qed.

End Prices.

Lemma C2_price_sign_not_checked_witness :
  ∃ o, model_validate (λ _, true) 0 BeverageCreate
         (<["price" := VDecimal (Decimal_neg (mkDecimal false [1; 5; 0; 0] (-3)))]>
            {[ "name" := VStr "cola"; "inventory" := VInt 3 ]}) = Valid o.
Proof.
  destruct (C2_price_sign_not_checked (λ _, true) 0 EBeverage "price"
              {[ "name" := VStr "cola"; "inventory" := VInt 3 ]}
              (mkDecimal false [1; 5; 0; 0] (-3))) as (_ & [Hpos _] & _).
  apply Hpos. eexists. vm_compute. reflexivity.
Defined.

(** C2, counterexample to the sentence as the spec has it: a Beverage priced -1.500 passes the
    validation of BeverageCreate and is stored with that price; an
    OrderDetailUpdate with price -1 and an OrderCreate with total_price -1
    are accepted as well. *)
Lemma C2_counterexample :
  let price := mkDecimal true [1; 5; 0; 0] (-3) in
  let payload : gmap string value :=
    {[ "name" := VStr "cola"; "price" := VDecimal price; "inventory" := VInt 3 ]} in
  Decimal_lt_int price 0 = true ∧
  (∃ o, model_validate (λ _, true) 1 BeverageCreate payload = Valid o ∧
        attrs o !! "price" = Some (VDecimal price)) ∧
  column "beverage" "price"
    <$> database_of (create (λ _, true) true EBeverage 1 payload ∅ ∅)
    = Some [Some (VDecimal price)] ∧
  (∃ o, model_validate (λ _, true) 1 OrderDetailUpdate
          {[ "order_id" := VUuid 2; "item_id" := VUuid 3; "price" := VInt (-1) ]} = Valid o ∧
        attrs o !! "price" = Some (VDecimal (mkDecimal true [1] 0))) ∧
  (∃ o, model_validate (λ _, true) 1 OrderCreate
          {[ "user_id" := VUuid 2; "total_price" := VInt (-1) ]} = Valid o ∧
        attrs o !! "total_price" = Some (VDecimal (mkDecimal true [1] 0))).
Proof.
  intros price payload. split; [|split; [|split; [|split]]].
  - vm_compute. reflexivity.
  - eexists. split; [vm_compute; reflexivity|]. vm_compute. reflexivity.
  - vm_compute. reflexivity.
  - eexists. split; [vm_compute; reflexivity|]. vm_compute. reflexivity.
  - eexists. split; [vm_compute; reflexivity|]. vm_compute. reflexivity.
Qed.

(** ** The attributes of a validated instance *)

Section Instances.

Variable is_email : string → bool.

Lemma coerce_idemp t v : coerce t (coerce t v) = coerce t v.
Proof. by destruct t, v. Qed.

Lemma check_value_coerce fd v :
  check_value is_email fd v = None →
  check_value is_email fd (coerce (base_type (ann fd)) v) = None.
Proof.
  unfold check_value, check_typed. rewrite coerce_idemp.
  destruct (base_type (ann fd)), v; simpl; done.
Qed.

(** Each field of a valid instance holds the given value (converted and
    checked) or, when the payload omits it, the declared default. *)
Lemma valid_attr uuid4 cls (p : gmap string value) o fd :
  NoDup (field_names cls) → fd ∈ model_fields cls →
  model_validate is_email uuid4 cls p = Valid o →
  (∃ v, p !! name fd = Some v ∧ check_value is_email fd v = None ∧
        attrs o !! name fd = Some (coerce (base_type (ann fd)) v)) ∨
  (∃ v, p !! name fd = None ∧ get (kw_default uuid4) fd = Some v ∧
        attrs o !! name fd = Some v).
Proof.
  intros Hnd Hfd Ho. pose proof (valid_field_error _ _ _ _ _ _ Ho Hfd) as He.
  apply model_validate_Valid in Ho as [_ ->]. simpl attrs.
  rewrite validated_attrs_lookup by done.
  unfold field_error in He. unfold field_value.
  destruct (p !! name fd) as [v|] eqn:Hp.
  - left. exists v. destruct (check_value is_email fd v); [done|]. done.
  - right. unfold is_required in He.
    destruct (get (kw_default uuid4) fd) as [v|] eqn:Hd.
    + by exists v.
    + exfalso. unfold get in *. destruct (kwargs fd) as [|k ks]; [done|].
      revert Hd He. generalize (k :: ks). intros l.
      induction l as [|k' l IH]; [done|]. simpl.
      destruct k'; simpl; try done; auto.
Qed.

Lemma valid_attr_absent uuid4 cls (p : gmap string value) o n :
  n ∉ field_names cls → model_validate is_email uuid4 cls p = Valid o →
  attrs o !! n = None.
Proof.
  intros Hn [_ ->]%model_validate_Valid. by apply validated_attrs_None.
Qed.

End Instances.

(** ** The public view of a user *)

Section PublicView.

Variable is_email : string → bool.

Lemma field_of_name cls f :
  f ∈ field_names cls → ∃ fd, fd ∈ model_fields cls ∧ name fd = f.
Proof. intros (fd & -> & Hfd)%list_elem_of_fmap. eauto. Qed.

(** The public view does not read the attributes the class does not declare. *)
Lemma serialize_ignores cls (a : gmap string value) n v :
  n ∉ field_names cls →
  serialize is_email cls (<[n := v]> a) = serialize is_email cls a.
Proof.
  intros Hn. unfold serialize.
  rewrite (model_validate_ext is_email 0 cls (<[n := v]> a) a); [done|].
  intros m Hm. apply lookup_insert_ne. congruence.
Qed.

(** The fields of UserPublic are declared as in User: the attributes of a
    valid User pass the checks of UserPublic unchanged. *)
Lemma user_attr_public uuid4 (p : gmap string value) u fd :
  model_validate is_email uuid4 User p = Valid u →
  fd ∈ model_fields UserPublic →
  ∃ v, attrs u !! name fd = Some v ∧ check_value is_email fd v = None ∧
       coerce (base_type (ann fd)) v = v.
Proof.
  intros Hu Hfd.
  assert (NoDup (field_names User)) as Hnd by distinct_names.
  each_field Hfd.
  - destruct (valid_attr is_email uuid4 User p u
                (Field "email" (Plain TEmailStr) [unique true; index true; max_length 255])
                Hnd ltac:(in_fields) Hu) as [(v & _ & Hc & Ha) | (v & _ & Hd & _)];
      [|by vm_compute in Hd].
    eexists. split; [exact Ha|]. split; [by apply check_value_coerce|].
    apply coerce_idemp.
  - destruct (valid_attr is_email uuid4 User p u
                (Field "is_active" (Plain Tbool) [default (VBool true)])
                Hnd ltac:(in_fields) Hu) as [(v & _ & Hc & Ha) | (v & _ & Hd & Ha)].
    + eexists. split; [exact Ha|]. split; [by apply check_value_coerce|].
      apply coerce_idemp.
    + vm_compute in Hd. injection Hd as <-. by eexists.
  - destruct (valid_attr is_email uuid4 User p u
                (Field "is_superuser" (Plain Tbool) [default (VBool false)])
                Hnd ltac:(in_fields) Hu) as [(v & _ & Hc & Ha) | (v & _ & Hd & Ha)].
    + eexists. split; [exact Ha|]. split; [by apply check_value_coerce|].
      apply coerce_idemp.
    + vm_compute in Hd. injection Hd as <-. by eexists.
  - destruct (valid_attr is_email uuid4 User p u
                (Field "full_name" (OrNone Tstr) [default VNone; max_length 255])
                Hnd ltac:(in_fields) Hu) as [(v & _ & Hc & Ha) | (v & _ & Hd & Ha)].
    + eexists. split; [exact Ha|]. split; [by apply check_value_coerce|].
      apply coerce_idemp.
    + vm_compute in Hd. injection Hd as <-. by eexists.
  - destruct (valid_attr is_email uuid4 User p u
                (Field "id" (Plain TUUID) [default_factory_uuid4; primary_key true])
                Hnd ltac:(in_fields) Hu) as [(v & _ & Hc & Ha) | (v & _ & Hd & Ha)].
    + destruct v; try (by vm_compute in Hc). by eexists.
    + vm_compute in Hd. injection Hd as <-. by eexists.
Qed.

(** C3: the public view of every valid User exists, holds exactly the
    fields id, email, is_active, is_superuser and full_name with the
    values the User has, has no hashed_password, and is the same whatever
    the hashed password of the User is. *)
Theorem C3_user_public_hides_hashed_password uuid4 (p : gmap string value) u :
  model_validate is_email uuid4 User p = Valid u →
  ∃ pub, serialize is_email UserPublic (attrs u) = Some pub ∧
    (∀ f, is_Some (pub !! f) ↔
          f ∈ ["id"; "email"; "is_active"; "is_superuser"; "full_name"]) ∧
    (∀ f, is_Some (pub !! f) → pub !! f = attrs u !! f) ∧
    pub !! "hashed_password" = None ∧
    (∀ h, serialize is_email UserPublic (<["hashed_password" := h]> (attrs u)) = Some pub).
Proof.
  intros Hu.
  assert (NoDup (field_names UserPublic)) as Hnd by distinct_names.
  assert (∃ o, model_validate is_email 0 UserPublic (attrs u) = Valid o) as [o Ho].
  { apply accepted_iff. intros fd Hfd.
    destruct (user_attr_public uuid4 p u fd Hu Hfd) as (v & Ha & Hc & _).
    unfold field_error. by rewrite Ha, Hc. }
  assert (∀ fd, fd ∈ model_fields UserPublic →
            attrs o !! name fd = attrs u !! name fd ∧ is_Some (attrs u !! name fd)) as Hpub.
  { intros fd Hfd.
    destruct (user_attr_public uuid4 p u fd Hu Hfd) as (v & Ha & _ & Hco).
    destruct (valid_attr is_email 0 UserPublic (attrs u) o fd Hnd Hfd Ho)
      as [(v' & Hv' & _ & Ho') | (v' & Hv' & _)]; [|congruence].
    rewrite Ho', Ha. split; [|by eexists]. congruence. }
  assert (∀ f, is_Some (attrs o !! f) →
            f ∈ ["id"; "email"; "is_active"; "is_superuser"; "full_name"]) as Honly.
  { intros f Hf.
    destruct (decide (f ∈ field_names UserPublic)) as [Hin|Hout].
    - vm_compute (field_names UserPublic) in Hin.
      repeat (apply elem_of_cons in Hin as [->|Hin]); [..|by apply elem_of_nil in Hin];
        by repeat constructor.
    - rewrite (valid_attr_absent is_email 0 UserPublic (attrs u) o f Hout Ho) in Hf.
      by destruct Hf. }
  exists (attrs o). split; [by unfold serialize; rewrite Ho|].
  split; [|split; [|split]].
  - intros f. split; [apply Honly|]. intros Hf.
    assert (∃ fd, fd ∈ model_fields UserPublic ∧ name fd = f) as (fd & Hfd & <-).
    { apply field_of_name. vm_compute (field_names UserPublic).
      repeat (apply elem_of_cons in Hf as [->|Hf]); [..|by apply elem_of_nil in Hf];
        by repeat constructor. }
    destruct (Hpub fd Hfd) as [-> ?]. done.
  - intros f Hf. apply Honly in Hf.
    assert (∃ fd, fd ∈ model_fields UserPublic ∧ name fd = f) as (fd & Hfd & <-).
    { apply field_of_name. vm_compute (field_names UserPublic).
      repeat (apply elem_of_cons in Hf as [->|Hf]); [..|by apply elem_of_nil in Hf];
        by repeat constructor. }
    by destruct (Hpub fd Hfd) as [-> ?].
  - apply (valid_attr_absent is_email 0 UserPublic (attrs u) o); [|done].
    apply (bool_decide_unpack _). by vm_compute.
  - intros h. rewrite serialize_ignores.
    + by unfold serialize; rewrite Ho.
    + apply (bool_decide_unpack _). by vm_compute.
Qed.

End PublicView.

Lemma C3_user_public_hides_hashed_password_witness :
  ∃ pub, serialize (λ _, true) UserPublic
           {[ "id" := VUuid 7; "email" := VStr "a@x.org"; "is_active" := VBool true;
              "is_superuser" := VBool false; "full_name" := VNone;
              "hashed_password" := VStr "$2b$12$abc" ]} = Some pub ∧
         pub !! "hashed_password" = None.
Proof.
  destruct (C3_user_public_hides_hashed_password (λ _, true) 7
              {[ "email" := VStr "a@x.org"; "hashed_password" := VStr "$2b$12$abc" ]}
              (Instance {[ "id" := VUuid 7; "email" := VStr "a@x.org";
                           "is_active" := VBool true; "is_superuser" := VBool false;
                           "full_name" := VNone; "hashed_password" := VStr "$2b$12$abc" ]}
                        {[ "email"; "hashed_password" ]}))
    as (pub & Hs & _ & _ & Hh & _).
  - vm_compute. reflexivity.
  - exists pub. split; [exact Hs | exact Hh].
Defined.

(** ** Self-registration *)

Section Registration.

Variable is_email : string → bool.
Variable get_password_hash : string → string.

(** A flag that the registration shape does not carry takes the default
    declared in UserBase on the way to the User row. *)
Lemma register_flag uuid4 (p : gmap string value) u flag b :
  Field flag (Plain Tbool) [default (VBool b)] ∈ model_fields UserBase →
  flag ∉ field_names UserRegister → flag ≠ "hashed_password" →
  register is_email get_password_hash uuid4 p = Valid u →
  attrs u !! flag = Some (VBool b).
Proof.
  intros Hbase Hreg Hne. unfold register.
  destruct (model_validate is_email uuid4 UserRegister p) as [reg|] eqn:Hr; [|done].
  destruct (model_validate is_email uuid4 UserCreate (attrs reg)) as [uc|] eqn:Hc; [|done].
  intros Hu.
  pose proof (valid_attr_absent is_email uuid4 UserRegister p reg flag Hreg Hr) as Habs.
  set (fd := Field flag (Plain Tbool) [default (VBool b)]) in *.
  assert (fd ∈ model_fields UserCreate) as Hfc.
  { vm_compute (model_fields UserBase) in Hbase.
    repeat (apply elem_of_cons in Hbase as [Heq|Hbase]); [..|by apply elem_of_nil in Hbase];
      try discriminate; injection Heq as -> ->; in_fields. }
  assert (fd ∈ model_fields User) as Hfu.
  { vm_compute (model_fields UserBase) in Hbase.
    repeat (apply elem_of_cons in Hbase as [Heq|Hbase]); [..|by apply elem_of_nil in Hbase];
      try discriminate; injection Heq as -> ->; in_fields. }
  destruct (valid_attr is_email uuid4 UserCreate (attrs reg) uc fd
              ltac:(distinct_names) Hfc Hc) as [(v & Hv & _) | (v & _ & Hd & Ha)].
  { simpl name in Hv. congruence. }
  injection Hd as <-. simpl name in Ha.
  destruct (valid_attr is_email uuid4 User _ u fd ltac:(distinct_names) Hfu Hu)
    as [(v & Hv & _ & Hau) | (v & Hv & _)]; simpl name in Hv;
    rewrite lookup_insert_ne in Hv by done; [|congruence].
  simpl name in Hau. rewrite Hau. f_equal. rewrite Ha in Hv. by injection Hv as <-.
Qed.

(** C10: UserRegister carries email, password and full_name only, and
    every user created by registration has is_superuser False and
    is_active True: two registration payloads, whatever keys they hold,
    give users with the same flags. *)
Theorem C10_registration_cannot_set_flags uuid4 uuid4' (p p' : gmap string value) u u' :
  register is_email get_password_hash uuid4 p = Valid u →
  register is_email get_password_hash uuid4' p' = Valid u' →
  field_names UserRegister = ["email"; "password"; "full_name"] ∧
  attrs u !! "is_superuser" = Some (VBool false) ∧
  attrs u !! "is_active" = Some (VBool true) ∧
  attrs u' !! "is_superuser" = attrs u !! "is_superuser" ∧
  attrs u' !! "is_active" = attrs u !! "is_active".
Proof.
  intros Hu Hu'.
  assert (∀ q w x, register is_email get_password_hash w q = Valid x →
            attrs x !! "is_superuser" = Some (VBool false) ∧
            attrs x !! "is_active" = Some (VBool true)) as Hflags.
  { intros q w x Hx. split.
    - apply (register_flag w q x "is_superuser" false); try done; [in_fields|].
      apply (bool_decide_unpack _). by vm_compute.
    - apply (register_flag w q x "is_active" true); try done; [in_fields|].
      apply (bool_decide_unpack _). by vm_compute. }
  destruct (Hflags _ _ _ Hu) as [-> ->]. destruct (Hflags _ _ _ Hu') as [-> ->].
  done.
Qed.

End Registration.

Lemma C10_registration_cannot_set_flags_witness :
  ∃ u u',
    register (λ _, true) (λ pw, "hash:" +:+ pw) 1
      {[ "email" := VStr "a@x.org"; "password" := VStr "12345678";
         "is_superuser" := VBool true; "is_active" := VBool false ]} = Valid u ∧
    register (λ _, true) (λ pw, "hash:" +:+ pw) 2
      {[ "email" := VStr "b@x.org"; "password" := VStr "abcdefgh" ]} = Valid u' ∧
    attrs u !! "is_superuser" = Some (VBool false) ∧
    attrs u !! "is_active" = Some (VBool true) ∧
    attrs u' !! "is_superuser" = attrs u !! "is_superuser".
Proof.
  assert (∃ u, register (λ _, true) (λ pw, "hash:" +:+ pw) 1
      {[ "email" := VStr "a@x.org"; "password" := VStr "12345678";
         "is_superuser" := VBool true; "is_active" := VBool false ]} = Valid u) as [u Hu].
  { eexists. vm_compute. reflexivity. }
  assert (∃ u', register (λ _, true) (λ pw, "hash:" +:+ pw) 2
      {[ "email" := VStr "b@x.org"; "password" := VStr "abcdefgh" ]} = Valid u') as [u' Hu'].
  { eexists. vm_compute. reflexivity. }
  exists u, u'. split; [exact Hu|]. split; [exact Hu'|].
  destruct (C10_registration_cannot_set_flags _ _ _ _ _ _ _ _ Hu Hu')
    as (_ & Hs & Ha & Hs' & _).
  auto.
Defined.

(** * Facts about the operations of the store *)

Section StoreFacts.

Variable is_email : string → bool.

Lemma checked_Ok enforce_fk (d d' : gmap string (list (gmap string value))) :
  checked enforce_fk d = Ok d' →
  d' = d ∧ (enforce_fk = true → referential_integrity d = true).
Proof.
  unfold checked. destruct enforce_fk, (referential_integrity d); simpl; try done;
    by intros [= <-].
Qed.

Lemma split_at_id_Some id rows before r after :
  split_at_id id rows = Some (before, r, after) →
  rows = before ++ r :: after ∧ row_id r = Some id.
Proof.
  revert before. induction rows as [|r0 rows IH]; intros before; [done|]. simpl.
  destruct (decide (row_id r0 = Some id)) as [Hid|Hid].
  - intros [= <- <- <-]. done.
  - destruct (split_at_id id rows) as [[[b r1] a]|]; [|done]. simpl.
    intros [= <- <- <-]. destruct (IH b eq_refl) as [-> ?]. done.
Qed.

Lemma create_Ok enforce_fk e uuid4 (p extra : gmap string value)
    (d d' : gmap string (list (gmap string value))) :
  create is_email enforce_fk e uuid4 p extra d = Ok d' →
  ∃ o row,
    model_validate is_email uuid4 (create_shape e) p = Valid o ∧
    model_validate is_email uuid4 (table_model e) (extra ∪ attrs o) = Valid row ∧
    not_null_ok (table_model e) (attrs row) = true ∧
    conflicts (table_model e) (d !!! table_of e) (attrs row) = false ∧
    d' = <[table_of e := (d !!! table_of e) ++ [attrs row]]> d.
Proof.
  unfold create, insert_row.
  destruct (model_validate is_email uuid4 (create_shape e) p) as [o|]; [|done].
  destruct (model_validate is_email uuid4 (table_model e) (extra ∪ attrs o))
    as [row|] eqn:Hrow; [|done].
  destruct (not_null_ok (table_model e) (attrs row)) eqn:Hnn; [|done]. simpl.
  destruct (conflicts (table_model e) (d !!! table_of e) (attrs row)) eqn:Hcf; [done|].
  intros Hc. apply checked_Ok in Hc as [Hd _]. subst d'. by exists o, row.
Qed.

Lemma update_Ok enforce_fk e id (p : gmap string value)
    (d d' : gmap string (list (gmap string value))) :
  update is_email enforce_fk e id p d = Ok d' →
  ∃ before r after o,
    split_at_id id (d !!! table_of e) = Some (before, r, after) ∧
    model_validate is_email 0 (update_shape e) p = Valid o ∧
    not_null_ok (table_model e) (sqlmodel_update (table_model e) r o) = true ∧
    conflicts (table_model e) (before ++ after) (sqlmodel_update (table_model e) r o) = false ∧
    d' = <[table_of e := before ++ sqlmodel_update (table_model e) r o :: after]> d.
Proof.
  unfold update.
  destruct (split_at_id id (d !!! table_of e)) as [[[before r] after]|]; [|done].
  destruct (model_validate is_email 0 (update_shape e) p) as [o|]; [|done].
  destruct (not_null_ok (table_model e) _) eqn:Hnn; [|done]. simpl.
  destruct (conflicts (table_model e) _ _) eqn:Hcf; [done|].
  intros Hc. apply checked_Ok in Hc as [Hd _]. subst d'. by exists before, r, after, o.
Qed.

(** Applying an Update instance keeps every attribute the payload omitted. *)
Lemma sqlmodel_update_frame uuid4 cls ucls (p r : gmap string value) o f :
  model_validate is_email uuid4 ucls p = Valid o → p !! f = None →
  sqlmodel_update cls r o !! f = r !! f.
Proof.
  intros Ho Hp. apply (model_validate_Valid is_email) in Ho as [_ ->].
  unfold sqlmodel_update.
  apply lookup_union_r, map_lookup_filter_None_2. right.
  intros v _ [Hset _]. simpl in Hset.
  apply (elem_of_given_fields is_email) in Hset as [_ [? Hs]]. congruence.
Qed.

End StoreFacts.

(** ** Partial updates *)

Section Updates.

Variable is_email : string → bool.

(** C1 (as the code has it): in the Update shape of every entity each
    field other than a foreign-key reference is optional, and applying a
    valid Update payload leaves the stored value of every omitted field
    unchanged, for a row and for the row of the database the update
    replaces. *)
Theorem C1_update_keeps_omitted_fields enforce_fk (e : entity) :
  (∀ fd, fd ∈ model_fields (update_shape e) → get kw_foreign_key fd = None →
         is_required fd = false) ∧
  (∀ uuid4 (p r : gmap string value) o f,
     model_validate is_email uuid4 (update_shape e) p = Valid o → p !! f = None →
     sqlmodel_update (table_model e) r o !! f = r !! f) ∧
  (∀ id (p : gmap string value) (d d' : gmap string (list (gmap string value))),
     update is_email enforce_fk e id p d = Ok d' →
     ∃ before r r' after,
       d !!! table_of e = before ++ r :: after ∧ row_id r = Some id ∧
       d' !!! table_of e = before ++ r' :: after ∧
       ∀ f, p !! f = None → r' !! f = r !! f).
Proof.
  split; [|split].
  - intros fd Hfd. destruct e; each_field Hfd; by vm_compute.
  - intros uuid4 p r o f. apply sqlmodel_update_frame.
  - intros id p d d' (before & r & after & o & Hs & Ho & _ & _ & ->)%update_Ok.
    apply split_at_id_Some in Hs as [Hrows Hid].
    exists before, r, (sqlmodel_update (table_model e) r o), after.
    split; [done|]. split; [done|]. split; [by rewrite lookup_total_insert_eq|].
    intros f Hf. by apply (sqlmodel_update_frame is_email 0 _ (update_shape e) p).
Qed.

End Updates.

Lemma C1_update_keeps_omitted_fields_witness :
  ∃ o, model_validate (λ _, true) 0 OrderUpdate
         {[ "user_id" := VUuid 5; "status" := VStr "paid" ]} = Valid o ∧
       sqlmodel_update Order
         {[ "id" := VUuid 9; "user_id" := VUuid 5; "status" := VStr "pending";
            "total_price" := VDecimal (mkDecimal false [1; 2; 5; 0] (-2)) ]} o
         !! "total_price" = Some (VDecimal (mkDecimal false [1; 2; 5; 0] (-2))).
Proof.
  assert (∃ o, model_validate (λ _, true) 0 OrderUpdate
                 {[ "user_id" := VUuid 5; "status" := VStr "paid" ]} = Valid o) as [o Ho].
  { eexists. vm_compute. reflexivity. }
  exists o. split; [exact Ho|].
  destruct (C1_update_keeps_omitted_fields (λ _, true) true EOrder) as (_ & Hframe & _).
  rewrite (Hframe 0%N _ _ o "total_price" Ho); reflexivity.
Defined.

(** C1, counterexample to the sentence as the spec has it: OrderUpdate inherits user_id, and
    OrderDetailUpdate order_id and item_id, as required fields; an
    OrderUpdate payload that gives only a status is rejected. *)
Lemma C1_counterexample :
  required_fields OrderUpdate = ["user_id"] ∧
  required_fields OrderDetailUpdate = ["order_id"; "item_id"] ∧
  model_validate (λ _, true) 0 OrderUpdate {[ "status" := VStr "paid" ]}
    = Invalid [Error "user_id" missing].
Proof. repeat split; vm_compute; reflexivity. Qed.

(** * Invariants of the store *)

Section StoreInvariants.

Variable is_email : string → bool.

Lemma omap_sublist {A B} (f : A → option B) (l1 l2 : list A) :
  l1 `sublist_of` l2 → omap f l1 `sublist_of` omap f l2.
Proof.
  induction 1 as [|x l1 l2 _ IH|x l1 l2 _ IH]; simpl.
  - constructor.
  - destruct (f x); [by constructor | done].
  - destruct (f x); [by constructor | done].
Qed.

(** Deleting only removes rows: every table afterwards is a sublist of the
    table before. *)
Lemma delete_rows_sublist depth e ids (d d' : gmap string (list (gmap string value))) :
  delete_rows depth e ids d = Some d' →
  ∀ t, (d' !!! t) `sublist_of` (d !!! t).
Proof.
  revert e ids d d'. induction depth as [|k IH]; intros e ids d d'; [done|]. simpl.
  assert (∀ (l : list (entity * string)) acc d1,
            foldl (λ acc '(c, col),
                     d0 ← acc;
                     delete_rows k c (ids_of (filter (λ r, refers col ids r = true)
                                                     (d0 !!! table_of c))) d0) acc l = Some d1 →
            ∃ d0, acc = Some d0 ∧ ∀ t, (d1 !!! t) `sublist_of` (d0 !!! t)) as Hfold.
  { induction l as [|[c col] l IHl]; intros acc d1; simpl.
    - intros ->. eauto.
    - intros (d0' & Hacc & Hsub)%IHl.
      destruct acc as [d0|]; [|done]. simpl in Hacc.
      exists d0. split; [done|]. intros t. etrans; [apply Hsub|]. by eapply IH. }
  destruct (foldl _ _ _) as [g|] eqn:Hg; [|done]. simpl. intros [= <-] t.
  apply Hfold in Hg as (d0 & [= <-] & Hsub).
  destruct (decide (table_of e = t)) as [<-|Hne].
  - rewrite lookup_total_insert_eq. etrans; [apply sublist_filter | apply Hsub].
  - rewrite lookup_total_insert_ne by done. apply Hsub.
Qed.

Lemma delete_Ok enforce_fk e id (d d' : gmap string (list (gmap string value))) :
  delete enforce_fk e id d = Ok d' →
  delete_rows (length entities) e [id] d = Some d' ∧
  (enforce_fk = true → referential_integrity d' = true).
Proof.
  unfold delete. destruct (split_at_id id (d !!! table_of e)); [|done].
  destruct (delete_rows (length entities) e [id] d) as [g|]; [|done].
  intros Hc. apply checked_Ok in Hc as [-> Hri]. done.
Qed.

(** A property of the database that every accepted operation preserves
    holds after every sequence of operations. *)
Lemma run_invariant (I : gmap string (list (gmap string value)) → Prop) enforce_fk :
  (∀ d o d', I d → step is_email enforce_fk d o = Ok d' → I d') →
  ∀ ops d, I d → I (run is_email enforce_fk ops d).
Proof.
  intros Hstep ops. induction ops as [|o ops IH]; intros d Hd; [done|].
  unfold run. simpl. fold (run is_email enforce_fk ops).
  destruct (step is_email enforce_fk d o) as [d1|] eqn:Ho; apply IH; eauto.
Qed.

(** NOT NULL, read at one column. *)
Lemma not_null_ok_field cls (r : gmap string value) fd :
  not_null_ok cls r = true → fd ∈ model_fields cls → column_nullable fd = false →
  ∃ v, r !! name fd = Some v ∧ v ≠ VNone.
Proof.
  unfold not_null_ok. rewrite forallb_forall. intros Hall Hfd Hcol.
  specialize (Hall fd). rewrite <- list_elem_of_In in Hall. specialize (Hall Hfd).
  simpl in Hall. destruct (r !! name fd) as [v|]; [|congruence].
  exists v. split; [done|]. intros ->. congruence.
Qed.

(** What an attribute holds after an update. *)
Lemma sqlmodel_update_lookup cls (r : gmap string value) o f :
  sqlmodel_update cls r o !! f = r !! f ∨
  (f ∈ fields_set o ∧ sqlmodel_update cls r o !! f = attrs o !! f).
Proof.
  unfold sqlmodel_update. rewrite lookup_union.
  destruct (filter _ (attrs o) !! f) as [v|] eqn:Hf.
  - right. apply map_lookup_filter_Some in Hf as [Hv [Hset _]]. simpl in Hset.
    split; [done|]. rewrite Hv. by destruct (r !! f).
  - left. by destruct (r !! f).
Qed.

End StoreInvariants.

(** ** Quantities of order details *)

Section Quantities.

Variable is_email : string → bool.

(** A value that passes the check of a quantity field is None (where the
    annotation allows it) or an int of at least 1. *)
Lemma quantity_checked fd v :
  base_type (ann fd) = Tint → get kw_ge fd = Some 1%Z →
  check_value is_email fd v = None →
  v = VNone ∨ ∃ q, v = VInt q ∧ (1 ≤ q)%Z.
Proof.
  intros Ht Hge Hc. destruct v as [| | q | | |]; [by left|..];
    try (unfold check_value, check_typed in Hc; rewrite Ht in Hc; simpl in Hc; done).
  right. exists q. split; [done|].
  rewrite check_value_int in Hc by done. by apply (check_ge_None fd q).
Qed.

Lemma quantities_positive_step enforce_fk d o d' :
  quantities_positive d → step is_email enforce_fk d o = Ok d' → quantities_positive d'.
Proof.
  intros Hd Hstep r Hr. destruct o as [e uuid4 p extra | e id p | e id]; simpl in Hstep.
  - apply create_Ok in Hstep as (o & row & _ & Hrow & Hnn & _ & ->).
    destruct (decide (table_of e = "orderdetail")) as [Ht|Ht].
    + rewrite <- Ht, lookup_total_insert_eq in Hr. rewrite Ht in Hr.
      apply elem_of_app in Hr as [Hr|Hr%list_elem_of_singleton]; [by apply Hd|]. subst r.
      destruct e; try discriminate. cbn [table_model update_shape create_shape] in *.
      destruct (valid_attr is_email uuid4 OrderDetail _ row
                  (Field "quantity" (Plain Tint) [ge 1])
                  ltac:(distinct_names) ltac:(in_fields) Hrow)
        as [(v & _ & Hc & Ha) | (v & _ & Hdef & _)]; [|by vm_compute in Hdef].
      apply quantity_checked in Hc as [->|(q & -> & Hq)]; try done.
      * destruct (not_null_ok_field OrderDetail (attrs row)
                    (Field "quantity" (Plain Tint) [ge 1]) Hnn ltac:(in_fields) eq_refl)
          as (v & Hv & Hne).
        simpl name in *. simpl in Ha. congruence.
      * exists q. done.
    + rewrite lookup_total_insert_ne in Hr by done. by apply Hd.
  - apply update_Ok in Hstep as (before & r0 & after & o & Hs & Ho & Hnn & _ & ->).
    apply split_at_id_Some in Hs as [Hrows _].
    destruct (decide (table_of e = "orderdetail")) as [Ht|Ht].
    + rewrite <- Ht, lookup_total_insert_eq in Hr. rewrite Ht in Hrows.
      assert (r ∈ d !!! "orderdetail" ∨ r = sqlmodel_update (table_model e) r0 o) as [Hold | ->].
      { rewrite Hrows. rewrite !elem_of_app, !elem_of_cons in *. tauto. }
      { by apply Hd. }
      destruct e; try discriminate. cbn [table_model update_shape create_shape] in *.
      destruct (sqlmodel_update_lookup OrderDetail r0 o "quantity") as [Hl | [Hset Hl]].
      { rewrite Hl. apply Hd. rewrite Hrows. apply elem_of_app. right. by left. }
      destruct (valid_attr is_email 0 OrderDetailUpdate p o
                  (Field "quantity" (OrNone Tint) [default VNone; ge 1])
                  ltac:(distinct_names) ltac:(in_fields) Ho)
        as [(v & _ & Hc & Ha) | (v & Hp & _)].
      * simpl name in Ha. simpl in Ha.
        apply quantity_checked in Hc as [->|(q & -> & Hq)]; try done;
          [|exists q; by rewrite Hl].
        destruct (not_null_ok_field OrderDetail _
                    (Field "quantity" (Plain Tint) [ge 1]) Hnn ltac:(in_fields) eq_refl)
          as (v & Hv & Hne). simpl name in Hv. congruence.
      * apply model_validate_Valid in Ho as [_ ->]. simpl in Hset.
        apply (elem_of_given_fields is_email) in Hset as [_ [? Hs]]. simpl name in Hp.
        congruence.
    + rewrite lookup_total_insert_ne in Hr by done. by apply Hd.
  - apply delete_Ok in Hstep as [Hdel _].
    apply Hd. eapply elem_of_sublist; [exact Hr|]. by eapply delete_rows_sublist.
Qed.

(** C8: an OrderDetailCreate payload with quantity 0 is rejected; with
    quantity 1 and no error on the other fields it is accepted; and after
    every sequence of operations from the empty database every stored
    OrderDetail has a quantity of at least 1. *)
Theorem C8_order_detail_quantity uuid4 enforce_fk :
  (∀ p : gmap string value, p !! "quantity" = Some (VInt 0) →
     ∃ errs, model_validate is_email uuid4 OrderDetailCreate p = Invalid errs ∧
             Error "quantity" greater_than_equal ∈ errs) ∧
  (∀ p : gmap string value,
     (∀ fd, fd ∈ model_fields OrderDetailCreate → name fd ≠ "quantity" →
            field_error is_email p fd = None) →
     ∃ o, model_validate is_email uuid4 OrderDetailCreate (<["quantity" := VInt 1]> p)
            = Valid o ∧
          attrs o !! "quantity" = Some (VInt 1)) ∧
  (∀ ops r, r ∈ run is_email enforce_fk ops ∅ !!! "orderdetail" →
     ∃ q, r !! "quantity" = Some (VInt q) ∧ (1 ≤ q)%Z).
Proof.
  split; [|split].
  - intros p Hp.
    apply (field_error_rejects is_email uuid4 OrderDetailCreate p
             (Field "quantity" (Plain Tint) [ge 1])); [in_fields|].
    unfold field_error. simpl name. rewrite Hp. reflexivity.
  - intros p Hother.
    assert (∃ o, model_validate is_email uuid4 OrderDetailCreate
                   (<["quantity" := VInt 1]> p) = Valid o) as [o Ho].
    { apply accepted_iff. intros fd Hfd.
      destruct (decide (name fd = "quantity")) as [Hq|Hq].
      - each_field Hfd; try discriminate.
        unfold field_error. simpl name. by rewrite lookup_insert_eq.
      - rewrite <- (Hother fd Hfd Hq). unfold field_error.
        by rewrite lookup_insert_ne. }
    exists o. split; [done|].
    destruct (valid_attr is_email uuid4 OrderDetailCreate _ o
                (Field "quantity" (Plain Tint) [ge 1])
                ltac:(distinct_names) ltac:(in_fields) Ho)
      as [(v & Hv & _ & Ha) | (v & Hv & _)]; simpl name in Hv;
      rewrite lookup_insert_eq in Hv; [|done].
    injection Hv as <-. exact Ha.
  - intros ops.
    apply (run_invariant is_email quantities_positive enforce_fk).
    + intros d o d'. apply quantities_positive_step.
    + intros r Hr. rewrite lookup_total_empty in Hr. by apply elem_of_nil in Hr.
Qed.

End Quantities.

Lemma C8_order_detail_quantity_witness :
  (∃ errs, model_validate (λ _, true) 0 OrderDetailCreate
             {[ "order_id" := VUuid 1; "item_id" := VUuid 2; "quantity" := VInt 0 ]}
           = Invalid errs ∧ Error "quantity" greater_than_equal ∈ errs) ∧
  (∃ o, model_validate (λ _, true) 0 OrderDetailCreate
          (<["quantity" := VInt 1]> {[ "order_id" := VUuid 1; "item_id" := VUuid 2 ]})
        = Valid o ∧ attrs o !! "quantity" = Some (VInt 1)).
Proof.
  destruct (C8_order_detail_quantity (λ _, true) 0 true) as (H0 & H1 & _). split.
  - apply H0. reflexivity.
  - apply H1. intros fd Hfd Hne. each_field Hfd; try done; reflexivity.
Defined.

(** ** Unique emails *)

Section Emails.

Variable is_email : string → bool.



End Emails.

Section EmailConflict.

Variable is_email : string → bool.






End EmailConflict.


(** ** Cascading deletes *)

Section Cascade.

Variable is_email : string → bool.

Lemma delete_rows_leaf k e ids (d : gmap string (list (gmap string value))) :
  cascade_children e = [] →
  delete_rows (S k) e ids d
  = Some (<[table_of e := filter (λ r, has_id ids r = false) (d !!! table_of e)]> d).
Proof. intros H. simpl. rewrite H. reflexivity. Qed.

Lemma delete_rows_Order k ids (d : gmap string (list (gmap string value))) :
  delete_rows (S (S k)) EOrder ids d
  = Some (let details := ids_of (filter (λ r, refers "order_id" ids r = true)
                                        (d !!! "orderdetail")) in
          let d1 := <["orderdetail" := filter (λ r, has_id details r = false)
                                              (d !!! "orderdetail")]> d in
          <["order" := filter (λ r, has_id ids r = false) (d1 !!! "order")]> d1).
Proof.
  change (delete_rows (S (S k)) EOrder ids d) with
    (d' ← foldl (λ acc '(c, col),
                    d0 ← acc;
                    delete_rows (S k) c (ids_of (filter (λ r, refers col ids r = true)
                                                    (d0 !!! table_of c))) d0)
                 (Some d) [(EOrderDetail, "order_id")];
      Some (<[table_of EOrder := filter (λ r, has_id ids r = false) (d' !!! table_of EOrder)]> d')).
  cbn [foldl mbind option_bind].
  rewrite delete_rows_leaf by reflexivity.
  reflexivity.
Qed.

Lemma delete_rows_User k ids (d : gmap string (list (gmap string value))) :
  delete_rows (S (S (S k))) EUser ids d
  = Some (let items := ids_of (filter (λ r, refers "owner_id" ids r = true) (d !!! "item")) in
          let d1 := <["item" := filter (λ r, has_id items r = false) (d !!! "item")]> d in
          let orders := ids_of (filter (λ r, refers "user_id" ids r = true) (d1 !!! "order")) in
          let details := ids_of (filter (λ r, refers "order_id" orders r = true)
                                        (d1 !!! "orderdetail")) in
          let d2 := <["orderdetail" := filter (λ r, has_id details r = false)
                                              (d1 !!! "orderdetail")]> d1 in
          let d3 := <["order" := filter (λ r, has_id orders r = false) (d2 !!! "order")]> d2 in
          <["user" := filter (λ r, has_id ids r = false) (d3 !!! "user")]> d3).
Proof.
  change (delete_rows (S (S (S k))) EUser ids d) with
    (d' ← foldl (λ acc '(c, col),
                    d0 ← acc;
                    delete_rows (S (S k)) c (ids_of (filter (λ r, refers col ids r = true)
                                                    (d0 !!! table_of c))) d0)
                 (Some d) [(EItem, "owner_id"); (EOrder, "user_id")];
      Some (<[table_of EUser := filter (λ r, has_id ids r = false) (d' !!! table_of EUser)]> d')).
  cbn [foldl mbind option_bind].
  rewrite delete_rows_leaf by reflexivity. cbn [mbind option_bind].
  rewrite delete_rows_Order. reflexivity.
Qed.

Lemma refers_has_id col ids (rows : list (gmap string value)) r :
  r ∈ rows → is_Some (row_id r) → refers col ids r = true →
  has_id (ids_of (filter (λ r0, refers col ids r0 = true) rows)) r = true.
Proof.
  intros Hr [u Hu] Href. unfold has_id. rewrite Hu. apply bool_decide_eq_true_2.
  apply list_elem_of_omap. exists r. split; [|done]. by apply list_elem_of_filter.
Qed.

(** An identifier outside [ids] survives the removal of the rows in [ids]. *)
Lemma ids_of_filter_keep ids (rows : list (gmap string value)) u :
  u ∈ ids_of rows → u ∉ ids →
  u ∈ ids_of (filter (λ r, has_id ids r = false) rows).
Proof.
  intros [r [Hr Hu]]%list_elem_of_omap Hout. apply list_elem_of_omap.
  exists r. split; [|done]. apply list_elem_of_filter. split; [|done].
  unfold has_id. rewrite Hu. by apply bool_decide_eq_false_2.
Qed.

Lemma refers_false_iff col ids (r : gmap string value) :
  refers col ids r = false ↔ ∀ u, r !! col = Some (VUuid u) → u ∉ ids.
Proof.
  unfold refers. destruct (r !! col) as [[]|]; try (split; [by intros _ ? [=] | done]).
  rewrite bool_decide_eq_false. split.
  - intros H ? [= <-]. done.
  - intros H. by apply H.
Qed.

Lemma split_at_id_is_Some id (rows : list (gmap string value)) :
  id ∈ ids_of rows → is_Some (split_at_id id rows).
Proof.
  induction rows as [|r rows IH]; simpl.
  - intros H. by apply elem_of_nil in H.
  - destruct (decide (row_id r = Some id)) as [Hid|Hid]; [by eexists|].
    unfold ids_of. simpl. fold (ids_of rows).
    destruct (row_id r) as [u|] eqn:Hu.
    + intros [->|Hin]%elem_of_cons; [done|].
      destruct (IH Hin) as [[[b r0] a] ->]. by eexists.
    + intros Hin. destruct (IH Hin) as [[[b r0] a] ->]. by eexists.
Qed.

Lemma fk_check_iff (d : gmap string (list (gmap string value))) (r : gmap string value)
    col p :
  match r !! col with
  | Some (VUuid u) => bool_decide (u ∈ ids_of (d !!! table_of p))
  | Some VNone => true
  | _ => false
  end = true ↔ fk_holds d r col p.
Proof.
  unfold fk_holds. destruct (r !! col) as [[]|]; try done.
  by rewrite bool_decide_eq_true.
Qed.

Lemma fk_ok_Item d r : fk_ok d EItem r = true ↔ fk_holds d r "owner_id" EUser.
Proof.
  unfold fk_ok. change (foreign_keys EItem) with [("owner_id", EUser)].
  cbn [forallb]. rewrite andb_true_r. apply fk_check_iff.
Qed.

Lemma fk_ok_Order d r : fk_ok d EOrder r = true ↔ fk_holds d r "user_id" EUser.
Proof.
  unfold fk_ok. change (foreign_keys EOrder) with [("user_id", EUser)].
  cbn [forallb]. rewrite andb_true_r. apply fk_check_iff.
Qed.

Lemma fk_ok_OrderDetail d r :
  fk_ok d EOrderDetail r = true ↔
  fk_holds d r "order_id" EOrder ∧ fk_holds d r "item_id" EItem.
Proof.
  unfold fk_ok.
  change (foreign_keys EOrderDetail) with [("order_id", EOrder); ("item_id", EItem)].
  cbn [forallb]. by rewrite andb_true_r, andb_true_iff, !fk_check_iff.
Qed.

Lemma referential_integrity_iff (d : gmap string (list (gmap string value))) :
  referential_integrity d = true ↔
  (∀ r, r ∈ d !!! "item" → fk_holds d r "owner_id" EUser) ∧
  (∀ r, r ∈ d !!! "order" → fk_holds d r "user_id" EUser) ∧
  (∀ r, r ∈ d !!! "orderdetail" →
        fk_holds d r "order_id" EOrder ∧ fk_holds d r "item_id" EItem).
Proof.
  unfold referential_integrity.
  change entities with [EUser; EItem; EBeverage; EOrder; EOrderDetail].
  cbn [forallb]. rewrite !andb_true_iff, !forallb_forall.
  change (table_of EItem) with "item". change (table_of EOrder) with "order".
  change (table_of EOrderDetail) with "orderdetail".
  split.
  - intros (_ & Hi & _ & Ho & Hd & _). repeat split.
    + intros r Hr. by apply fk_ok_Item, Hi, list_elem_of_In.
    + intros r Hr. by apply fk_ok_Order, Ho, list_elem_of_In.
    + by apply fk_ok_OrderDetail, Hd, list_elem_of_In.
    + by apply fk_ok_OrderDetail, Hd, list_elem_of_In.
  - intros (Hi & Ho & Hd). repeat split; try done.
    + intros r Hr. by apply fk_ok_Item, Hi, list_elem_of_In.
    + intros r Hr. by apply fk_ok_Order, Ho, list_elem_of_In.
    + intros r Hr. by apply fk_ok_OrderDetail, Hd, list_elem_of_In.
Qed.

Lemma delete_rows_User_tables k ids (d d' : gmap string (list (gmap string value))) :
  delete_rows (S (S (S k))) EUser ids d = Some d' →
  let items := ids_of (filter (λ r, refers "owner_id" ids r = true) (d !!! "item")) in
  let orders := ids_of (filter (λ r, refers "user_id" ids r = true) (d !!! "order")) in
  let details := ids_of (filter (λ r, refers "order_id" orders r = true)
                                (d !!! "orderdetail")) in
  d' !!! "user" = filter (λ r, has_id ids r = false) (d !!! "user") ∧
  d' !!! "item" = filter (λ r, has_id items r = false) (d !!! "item") ∧
  d' !!! "order" = filter (λ r, has_id orders r = false) (d !!! "order") ∧
  d' !!! "orderdetail" = filter (λ r, has_id details r = false) (d !!! "orderdetail").
Proof.
  rewrite delete_rows_User. intros [= <-]. cbv zeta.
  repeat split;
    repeat (rewrite lookup_total_insert_eq || rewrite lookup_total_insert_ne by done);
    reflexivity.
Qed.

Lemma delete_rows_Order_tables k ids (d d' : gmap string (list (gmap string value))) :
  delete_rows (S (S k)) EOrder ids d = Some d' →
  let details := ids_of (filter (λ r, refers "order_id" ids r = true)
                                (d !!! "orderdetail")) in
  d' !!! "user" = d !!! "user" ∧
  d' !!! "item" = d !!! "item" ∧
  d' !!! "order" = filter (λ r, has_id ids r = false) (d !!! "order") ∧
  d' !!! "orderdetail" = filter (λ r, has_id details r = false) (d !!! "orderdetail").
Proof.
  rewrite delete_rows_Order. intros [= <-]. cbv zeta.
  repeat split;
    repeat (rewrite lookup_total_insert_eq || rewrite lookup_total_insert_ne by done);
    reflexivity.
Qed.

(** A foreign key that held before a deletion holds afterwards when the
    row it references is not among the removed ones. *)
Lemma fk_holds_keep (d d' : gmap string (list (gmap string value))) r col p ids :
  d' !!! table_of p = filter (λ r0, has_id ids r0 = false) (d !!! table_of p) →
  fk_holds d r col p → refers col ids r = false → fk_holds d' r col p.
Proof.
  intros Ht Hfk Href. unfold fk_holds in *. rewrite Ht.
  destruct (r !! col) as [[| | | | |u]|] eqn:Hc; try done.
  apply ids_of_filter_keep; [done|]. by apply (refers_false_iff col ids r).
Qed.

Lemma fk_holds_same (d d' : gmap string (list (gmap string value))) r col p :
  d' !!! table_of p = d !!! table_of p → fk_holds d r col p → fk_holds d' r col p.
Proof. unfold fk_holds. by intros ->. Qed.

(** A row that survives the removal of the rows referencing [ids] does not
    reference [ids]. *)
Lemma survivor_not_referring col ids (rows : list (gmap string value)) r :
  (∀ r0, r0 ∈ rows → is_Some (row_id r0)) →
  r ∈ filter (λ r0, has_id (ids_of (filter (λ r1, refers col ids r1 = true) rows)) r0 = false)
             rows →
  refers col ids r = false.
Proof.
  intros Hids [Hsurv Hr]%list_elem_of_filter.
  destruct (refers col ids r) eqn:Href; [|done].
  by rewrite (refers_has_id col ids rows r Hr (Hids r Hr) Href) in Hsurv.
Qed.


Lemma forallb_implies {A} (P Q : A → bool) (l : list A) :
  forallb (λ x, implb (P x) (Q x)) l = true →
  ∀ x, x ∈ l → P x = true → Q x = true.
Proof.
  rewrite forallb_forall. intros H x Hx%list_elem_of_In HP.
  specialize (H x Hx). by rewrite HP in H.
Qed.

Lemma row_id_Some (r : gmap string value) u :
  row_id r = Some u ↔ r !! "id" = Some (VUuid u).
Proof. unfold row_id. destruct (r !! "id") as [[]|]; split; congruence. Qed.

(** *** Identifiers and references in the databases the store reaches *)

(** A validated row of a table class has an identifier: the one given, or
    the one the factory makes. *)
Lemma valid_row_has_id uuid4 e (p : gmap string value) row :
  model_validate is_email uuid4 (table_model e) p = Valid row →
  is_Some (row_id (attrs row)).
Proof.
  intros Hrow.
  assert (Field "id" (Plain TUUID) [default_factory_uuid4; primary_key true]
          ∈ model_fields (table_model e)) as Hfd by (destruct e; in_fields).
  assert (NoDup (field_names (table_model e))) as Hnd by (destruct e; distinct_names).
  destruct (valid_attr is_email uuid4 _ p row _ Hnd Hfd Hrow)
    as [(v & _ & Hc & Ha) | (v & _ & Hdef & Ha)]; simpl name in Ha.
  - destruct v; vm_compute in Hc; try discriminate Hc.
    eexists. apply row_id_Some. exact Ha.
  - injection Hdef as <-. eexists. apply row_id_Some. exact Ha.
Qed.

(** The primary key is unique: a row that does not conflict has a fresh
    identifier. *)
Lemma conflicts_false_id e (rows : list (gmap string value)) r u :
  conflicts (table_model e) rows r = false → row_id r = Some u → u ∉ ids_of rows.
Proof.
  intros Hc Hr [r0 [Hin Hu]]%list_elem_of_omap.
  apply row_id_Some in Hr. apply row_id_Some in Hu.
  assert (conflicts (table_model e) rows r = true); [|congruence].
  unfold conflicts. apply existsb_exists. exists r0. split; [by apply list_elem_of_In|].
  apply existsb_exists. exists "id". split; [destruct e; vm_compute; auto|].
  unfold same_on. rewrite Hu, Hr.
  rewrite bool_decide_eq_true_2 by done. by rewrite bool_decide_eq_false_2.
Qed.

(** No Update shape has a field [id]: an update keeps the identifier. *)
Lemma update_keeps_id e (p r : gmap string value) o :
  model_validate is_email 0 (update_shape e) p = Valid o →
  row_id (sqlmodel_update (table_model e) r o) = row_id r.
Proof.
  intros Ho. unfold row_id.
  destruct (sqlmodel_update_lookup (table_model e) r o "id") as [-> | [Hset _]]; [done|].
  apply (model_validate_Valid is_email) in Ho as [_ ->]. simpl in Hset.
  apply (elem_of_given_fields is_email) in Hset as [Hin _].
  exfalso. revert Hin. destruct e; apply (bool_decide_unpack _); vm_compute; exact I.
Qed.

Lemma keys_step enforce_fk d o d' :
  rows_have_ids d ∧ ids_unique d → step is_email enforce_fk d o = Ok d' →
  rows_have_ids d' ∧ ids_unique d'.
Proof.
  intros [Hids Hnd] Hstep.
  destruct o as [e uuid4 p extra | e id p | e id]; simpl in Hstep.
  - apply create_Ok in Hstep as (o & row & _ & Hrow & _ & Hcf & ->).
    destruct (valid_row_has_id _ _ _ _ Hrow) as [u Hu].
    split.
    + intros e' r Hr. destruct (decide (table_of e = table_of e')) as [Ht|Ht].
      * rewrite <- Ht, lookup_total_insert_eq in Hr.
        apply elem_of_app in Hr as [Hr | ->%list_elem_of_singleton];
          [by apply (Hids e) | by eexists].
      * rewrite lookup_total_insert_ne in Hr by done. by apply (Hids e').
    + intros e'. destruct (decide (table_of e = table_of e')) as [Ht|Ht].
      * rewrite <- Ht, lookup_total_insert_eq. unfold ids_of. rewrite omap_app.
        simpl. rewrite Hu. apply NoDup_app. split; [apply (Hnd e)|].
        split; [|apply NoDup_singleton].
        intros x Hx ->%list_elem_of_singleton.
        by apply (conflicts_false_id e _ _ _ Hcf Hu).
      * rewrite lookup_total_insert_ne by done. apply Hnd.
  - apply update_Ok in Hstep as (before & r0 & after & o & Hs & Ho & _ & _ & ->).
    apply split_at_id_Some in Hs as [Hrows Hid].
    pose proof (update_keeps_id e p r0 o Ho) as Hkeep.
    split.
    + intros e' r Hr. destruct (decide (table_of e = table_of e')) as [Ht|Ht].
      * rewrite <- Ht, lookup_total_insert_eq in Hr.
        apply elem_of_app in Hr as [Hr | [-> | Hr]%elem_of_cons].
        -- apply (Hids e). rewrite Hrows. apply elem_of_app. by left.
        -- rewrite Hkeep, Hid. by eexists.
        -- apply (Hids e). rewrite Hrows. apply elem_of_app. right. by right.
      * rewrite lookup_total_insert_ne in Hr by done. by apply (Hids e').
    + intros e'. destruct (decide (table_of e = table_of e')) as [Ht|Ht].
      * rewrite <- Ht, lookup_total_insert_eq.
        assert (ids_of (before ++ sqlmodel_update (table_model e) r0 o :: after)
                = ids_of (d !!! table_of e)) as ->; [|apply Hnd].
        rewrite Hrows. unfold ids_of. rewrite !omap_app. simpl. by rewrite Hkeep.
      * rewrite lookup_total_insert_ne by done. apply Hnd.
  - apply delete_Ok in Hstep as [Hdel _]. split.
    + intros e' r Hr. apply (Hids e').
      eapply elem_of_sublist; [exact Hr|]. by eapply delete_rows_sublist.
    + intros e'. eapply sublist_NoDup; [apply (Hnd e')|].
      apply omap_sublist. by eapply delete_rows_sublist.
Qed.

(** Every row of a database the store reaches has an identifier, and no
    two rows of a table share one. *)
Lemma reachable_keys enforce_fk ops :
  rows_have_ids (run is_email enforce_fk ops ∅) ∧
  ids_unique (run is_email enforce_fk ops ∅).
Proof.
  apply (run_invariant is_email (λ d, rows_have_ids d ∧ ids_unique d) enforce_fk).
  - intros d o d'. apply keys_step.
  - split.
    + intros e r Hr. rewrite lookup_total_empty in Hr. by apply elem_of_nil in Hr.
    + intros e. rewrite lookup_total_empty. constructor.
Qed.

(** A store that enforces foreign keys accepts only what leaves every
    foreign key referencing an existing row. *)
Lemma integrity_step d o d' :
  step is_email true d o = Ok d' → referential_integrity d' = true.
Proof.
  destruct o as [e uuid4 p extra | e id p | e id]; simpl.
  - unfold create, insert_row.
    destruct (model_validate is_email uuid4 (create_shape e) p) as [o|]; [|done].
    destruct (model_validate is_email uuid4 (table_model e) (extra ∪ attrs o))
      as [row|]; [|done].
    destruct (negb _); [done|]. destruct (conflicts _ _ _); [done|].
    intros [-> H]%checked_Ok. by apply H.
  - unfold update.
    destruct (split_at_id id (d !!! table_of e)) as [[[before r] after]|]; [|done].
    destruct (model_validate is_email 0 (update_shape e) p) as [o|]; [|done].
    destruct (negb _); [done|]. destruct (conflicts _ _ _); [done|].
    intros [-> H]%checked_Ok. by apply H.
  - intros [_ H]%delete_Ok. by apply H.
Qed.

Lemma reachable_integrity enforce_fk ops :
  enforce_fk = true → referential_integrity (run is_email enforce_fk ops ∅) = true.
Proof.
  intros ->. apply (run_invariant is_email (λ d, referential_integrity d = true) true).
  - intros d o d' _. apply integrity_step.
  - reflexivity.
Qed.

Lemma same_id_same_row (rows : list (gmap string value)) r1 r2 u :
  NoDup (ids_of rows) → r1 ∈ rows → r2 ∈ rows →
  row_id r1 = Some u → row_id r2 = Some u → r1 = r2.
Proof.
  unfold ids_of. induction rows as [|r rows IH]; intros Hnd H1 H2 Hu1 Hu2;
    [by apply elem_of_nil in H1|].
  simpl in Hnd.
  apply elem_of_cons in H1 as [->|H1]; apply elem_of_cons in H2 as [->|H2]; [done|..].
  - rewrite Hu1 in Hnd. apply NoDup_cons in Hnd as [Hout _]. exfalso. apply Hout.
    apply list_elem_of_omap. by exists r2.
  - rewrite Hu2 in Hnd. apply NoDup_cons in Hnd as [Hout _]. exfalso. apply Hout.
    apply list_elem_of_omap. by exists r1.
  - apply IH; try done. destruct (row_id r); [by apply NoDup_cons in Hnd as [_ ?] | done].
Qed.

(** *** What a cascade removes and what it leaves *)

Lemma delete_user_removes (d d' : gmap string (list (gmap string value))) uid :
  rows_have_ids d → delete_rows (length entities) EUser [uid] d = Some d' →
  (∀ r, r ∈ d' !!! "user" → has_id [uid] r = false) ∧
  (∀ r, r ∈ d' !!! "item" → refers "owner_id" [uid] r = false) ∧
  (∀ r, r ∈ d' !!! "order" → refers "user_id" [uid] r = false) ∧
  (∀ r, r ∈ d' !!! "orderdetail" →
     refers "order_id" (owned_by "user_id" uid (d !!! "order")) r = false).
Proof.
  intros Hids Hdel. change (length entities) with 5 in Hdel.
  destruct (delete_rows_User_tables 2 [uid] d d' Hdel) as (Hu & Hi & Ho & Hd).
  split; [|split; [|split]].
  - intros r Hr. rewrite Hu in Hr. by apply list_elem_of_filter in Hr as [? _].
  - intros r Hr. rewrite Hi in Hr.
    exact (survivor_not_referring "owner_id" [uid] (d !!! "item") r (Hids EItem) Hr).
  - intros r Hr. rewrite Ho in Hr.
    exact (survivor_not_referring "user_id" [uid] (d !!! "order") r (Hids EOrder) Hr).
  - intros r Hr. rewrite Hd in Hr.
    exact (survivor_not_referring "order_id" _ (d !!! "orderdetail") r
             (Hids EOrderDetail) Hr).
Qed.

Lemma delete_order_removes (d d' : gmap string (list (gmap string value))) oid :
  rows_have_ids d → delete_rows (length entities) EOrder [oid] d = Some d' →
  (∀ r, r ∈ d' !!! "order" → has_id [oid] r = false) ∧
  (∀ r, r ∈ d' !!! "orderdetail" → refers "order_id" [oid] r = false).
Proof.
  intros Hids Hdel. change (length entities) with 5 in Hdel.
  destruct (delete_rows_Order_tables 3 [oid] d d' Hdel) as (_ & _ & Ho & Hd).
  split.
  - intros r Hr. rewrite Ho in Hr. by apply list_elem_of_filter in Hr as [? _].
  - intros r Hr. rewrite Hd in Hr.
    exact (survivor_not_referring "order_id" [oid] (d !!! "orderdetail") r
             (Hids EOrderDetail) Hr).
Qed.

(** The delete of a User leaves every foreign key referencing an existing
    row when no OrderDetail of another user's Order references one of the
    deleted User's Items. *)
Lemma delete_user_integrity (d d' : gmap string (list (gmap string value))) uid :
  rows_have_ids d → referential_integrity d = true →
  (∀ r, r ∈ d !!! "orderdetail" →
     refers "item_id" (owned_by "owner_id" uid (d !!! "item")) r = true →
     refers "order_id" (owned_by "user_id" uid (d !!! "order")) r = true) →
  delete_rows (length entities) EUser [uid] d = Some d' →
  referential_integrity d' = true.
Proof.
  intros Hids Hri Hforeign Hdel.
  destruct (delete_user_removes d d' uid Hids Hdel) as (_ & Hpi & Hpo & Hpd).
  change (length entities) with 5 in Hdel.
  destruct (delete_rows_User_tables 2 [uid] d d' Hdel) as (Hu & Hi & Ho & Hd).
  fold (owned_by "owner_id" uid (d !!! "item")) in Hi.
  fold (owned_by "user_id" uid (d !!! "order")) in Ho, Hd.
  apply referential_integrity_iff in Hri as (Hfi & Hfo & Hfd).
  apply referential_integrity_iff. split; [|split].
  - intros r Hr. apply (fk_holds_keep d d' r "owner_id" EUser [uid] Hu); [|by apply Hpi].
    rewrite Hi in Hr. apply list_elem_of_filter in Hr as [_ Hr]. by apply Hfi.
  - intros r Hr. apply (fk_holds_keep d d' r "user_id" EUser [uid] Hu); [|by apply Hpo].
    rewrite Ho in Hr. apply list_elem_of_filter in Hr as [_ Hr]. by apply Hfo.
  - intros r Hr. pose proof (Hpd r Hr) as Hno.
    rewrite Hd in Hr. apply list_elem_of_filter in Hr as [_ Hr].
    destruct (Hfd r Hr) as [Hf1 Hf2]. split.
    + by apply (fk_holds_keep d d' r "order_id" EOrder _ Ho).
    + apply (fk_holds_keep d d' r "item_id" EItem _ Hi); [done|].
      destruct (refers "item_id" _ r) eqn:Hit; [|done].
      rewrite (Hforeign r Hr Hit) in Hno. done.
Qed.

(** Conversely, an OrderDetail of another user's Order that references one
    of the deleted User's Items is left, referencing a row that is gone. *)
Lemma delete_user_dangling (d d' : gmap string (list (gmap string value))) uid :
  rows_have_ids d → ids_unique d →
  delete_rows (length entities) EUser [uid] d = Some d' →
  referential_integrity d' = true →
  ∀ r, r ∈ d !!! "orderdetail" →
    refers "item_id" (owned_by "owner_id" uid (d !!! "item")) r = true →
    refers "order_id" (owned_by "user_id" uid (d !!! "order")) r = true.
Proof.
  intros Hids Hnd Hdel Hri r Hr Hit.
  change (length entities) with 5 in Hdel.
  destruct (delete_rows_User_tables 2 [uid] d d' Hdel) as (_ & Hi & _ & Hd).
  fold (owned_by "owner_id" uid (d !!! "item")) in Hi.
  fold (owned_by "user_id" uid (d !!! "order")) in Hd.
  destruct (refers "order_id" (owned_by "user_id" uid (d !!! "order")) r) eqn:Hord; [done|].
  exfalso.
  assert (r ∈ d' !!! "orderdetail") as Hr'.
  { rewrite Hd. apply list_elem_of_filter. split; [|done].
    destruct (Hids EOrderDetail r Hr) as [x Hx]. unfold has_id. rewrite Hx.
    apply bool_decide_eq_false_2.
    intros (r2 & [Href Hr2]%list_elem_of_filter & Hx2)%list_elem_of_omap.
    assert (r2 = r) as -> by exact (same_id_same_row _ r2 r x (Hnd EOrderDetail) Hr2 Hr Hx2 Hx).
    congruence. }
  apply referential_integrity_iff in Hri as (_ & _ & Hfd).
  destruct (Hfd r Hr') as [_ Hfk]. unfold fk_holds in Hfk. unfold refers in Hit.
  destruct (r !! "item_id") as [[| | | | |i]|]; try done.
  apply bool_decide_eq_true in Hit.
  change (table_of EItem) with "item" in Hfk. rewrite Hi in Hfk.
  apply list_elem_of_omap in Hfk as (r3 & [Hout _]%list_elem_of_filter & Hi3).
  unfold has_id in Hout. rewrite Hi3 in Hout. by apply bool_decide_eq_false in Hout.
Qed.

Lemma delete_order_integrity (d d' : gmap string (list (gmap string value))) oid :
  rows_have_ids d → referential_integrity d = true →
  delete_rows (length entities) EOrder [oid] d = Some d' →
  referential_integrity d' = true.
Proof.
  intros Hids Hri Hdel.
  destruct (delete_order_removes d d' oid Hids Hdel) as (_ & Hpd).
  change (length entities) with 5 in Hdel.
  destruct (delete_rows_Order_tables 3 [oid] d d' Hdel) as (Hu & Hi & Ho & Hd).
  apply referential_integrity_iff in Hri as (Hfi & Hfo & Hfd).
  apply referential_integrity_iff. split; [|split].
  - intros r Hr. rewrite Hi in Hr.
    by apply (fk_holds_same d d' r "owner_id" EUser Hu), Hfi.
  - intros r Hr. rewrite Ho in Hr. apply list_elem_of_filter in Hr as [_ Hr].
    by apply (fk_holds_same d d' r "user_id" EUser Hu), Hfo.
  - intros r Hr. pose proof (Hpd r Hr) as Hno.
    rewrite Hd in Hr. apply list_elem_of_filter in Hr as [_ Hr].
    destruct (Hfd r Hr) as [Hf1 Hf2]. split.
    + by apply (fk_holds_keep d d' r "order_id" EOrder _ Ho).
    + by apply (fk_holds_same d d' r "item_id" EItem Hi).
Qed.

(** The delete of an existing row is accepted unless the store enforces
    foreign keys and the cascade leaves a dangling one. *)
Lemma delete_accepted enforce_fk e id (d d1 : gmap string (list (gmap string value))) :
  id ∈ ids_of (d !!! table_of e) →
  delete_rows (length entities) e [id] d = Some d1 →
  (enforce_fk = true → referential_integrity d1 = true) →
  delete enforce_fk e id d = Ok d1.
Proof.
  intros Hid Hdel Hri. destruct (split_at_id_is_Some id _ Hid) as [s Hs].
  unfold delete. rewrite Hs, Hdel. unfold checked.
  destruct enforce_fk; [|done]. by rewrite Hri.
Qed.

(** C4 (as the code has it): in every database the store reaches from the
    empty one, a delete of a User that the store accepts removes the User,
    all its Items, all its Orders and the OrderDetails of those Orders, and
    an accepted delete of an Order removes the Order and all its
    OrderDetails. The delete of an existing Order is always accepted. The
    delete of an existing User is accepted exactly when the store does not
    enforce foreign keys or every OrderDetail that references one of the
    User's Items belongs to one of the User's Orders: OrderDetail.item_id
    declares no cascade, so an OrderDetail of another user's Order is not
    removed with the Item it references. A store that enforces foreign
    keys leaves none dangling after an accepted delete. *)
Theorem C4_delete_cascades enforce_fk (ops : list op) :
  let d := run is_email enforce_fk ops ∅ in
  (∀ uid d', delete enforce_fk EUser uid d = Ok d' →
     (∀ r, r ∈ d' !!! "user" → has_id [uid] r = false) ∧
     (∀ r, r ∈ d' !!! "item" → refers "owner_id" [uid] r = false) ∧
     (∀ r, r ∈ d' !!! "order" → refers "user_id" [uid] r = false) ∧
     (∀ r, r ∈ d' !!! "orderdetail" →
        refers "order_id" (owned_by "user_id" uid (d !!! "order")) r = false)) ∧
  (∀ oid d', delete enforce_fk EOrder oid d = Ok d' →
     (∀ r, r ∈ d' !!! "order" → has_id [oid] r = false) ∧
     (∀ r, r ∈ d' !!! "orderdetail" → refers "order_id" [oid] r = false)) ∧
  (∀ oid, oid ∈ ids_of (d !!! "order") → ∃ d', delete enforce_fk EOrder oid d = Ok d') ∧
  (∀ uid, uid ∈ ids_of (d !!! "user") →
     (∃ d', delete enforce_fk EUser uid d = Ok d') ↔
     (enforce_fk = true →
      ∀ r, r ∈ d !!! "orderdetail" →
        refers "item_id" (owned_by "owner_id" uid (d !!! "item")) r = true →
        refers "order_id" (owned_by "user_id" uid (d !!! "order")) r = true)) ∧
  (enforce_fk = true →
   ∀ e id d', delete enforce_fk e id d = Ok d' → referential_integrity d' = true).
Proof.
  cbv zeta.
  destruct (reachable_keys enforce_fk ops) as [Hids Hnd].
  pose proof (reachable_integrity enforce_fk ops) as Hri.
  revert Hids Hnd Hri. generalize (run is_email enforce_fk ops ∅). intros d Hids Hnd Hri.
  split; [|split; [|split; [|split]]].
  - intros uid d' [Hdel _]%delete_Ok. by apply (delete_user_removes d).
  - intros oid d' [Hdel _]%delete_Ok. by apply (delete_order_removes d).
  - intros oid Hoid. eexists.
    apply (delete_accepted enforce_fk EOrder oid d _ Hoid (delete_rows_Order 3 [oid] d)).
    intros Henf. eapply (delete_order_integrity d _ oid Hids (Hri Henf)).
    apply (delete_rows_Order 3 [oid] d).
  - intros uid Huid. split.
    + intros [d' [Hdel Hri']%delete_Ok] Henf.
      exact (delete_user_dangling d d' uid Hids Hnd Hdel (Hri' Henf)).
    + intros Hforeign. eexists.
      apply (delete_accepted enforce_fk EUser uid d _ Huid (delete_rows_User 2 [uid] d)).
      intros Henf. eapply (delete_user_integrity d _ uid Hids (Hri Henf) (Hforeign Henf)).
      apply (delete_rows_User 2 [uid] d).
  - intros Henf e id d' [_ Hri']%delete_Ok. by apply Hri'.
Qed.

End Cascade.

Lemma C4_delete_cascades_witness :
  ∃ d', delete true EUser 2 shop = Ok d' ∧
        (∀ r, r ∈ d' !!! "order" → refers "user_id" [2%N] r = false) ∧
        referential_integrity d' = true.
Proof.
  unfold shop.
  match goal with
  | |- ∃ d', delete _ _ _ (run _ _ ?ops _) = _ ∧ _ =>
      destruct (C4_delete_cascades (λ _, true) true ops) as (Hrem & _ & _ & Hacc & Hint)
  end.
  destruct (proj2 (Hacc 2%N ltac:(apply (bool_decide_unpack _); vm_compute; exact I)))
    as [d' Hdel].
  - intros _. apply forallb_implies. vm_compute. reflexivity.
  - exists d'. split; [exact Hdel|]. split.
    + by destruct (Hrem 2%N d' Hdel) as (_ & _ & Ho & _).
    + exact (Hint eq_refl EUser 2%N d' Hdel).
Defined.

(** C4, counterexample to the sentence as the spec has it: in [shop] the first user owns an item
    that an order detail of the second user's order references. With
    foreign keys enforced the delete of the first user is refused; without,
    the item is removed and the order detail is left referencing it. *)
Lemma C4_counterexample :
  referential_integrity shop = true ∧
  delete true EUser 1 shop = Rejected reference_error ∧
  column "item" "id" <$> database_of (delete false EUser 1 shop) = Some [] ∧
  column "orderdetail" "item_id" <$> database_of (delete false EUser 1 shop)
    = Some [Some (VUuid 10)] ∧
  referential_integrity <$> database_of (delete false EUser 1 shop) = Some false.
Proof. repeat split; vm_compute; reflexivity. Qed.

(** * Further properties of the declarations *)

Section Extras.

Variable is_email : string → bool.

Lemma field_error_empty fd :
  field_error is_email ∅ fd = if is_required fd then Some (Error (name fd) missing) else None.
Proof. unfold field_error. by rewrite lookup_empty. Qed.

(** X1: the empty payload is answered with a missing error for each
    required field, in declaration order, and is accepted exactly by the
    classes without required field (UserUpdate, UserUpdateMe, ItemUpdate,
    BeverageUpdate and TokenPayload), with no field set. *)
Theorem empty_payload_reports_required_fields uuid4 cls :
  validation_errors is_email cls ∅ = (λ n, Error n missing) <$> required_fields cls ∧
  ((∃ o, model_validate is_email uuid4 cls ∅ = Valid o) ↔ required_fields cls = []) ∧
  (∀ o, model_validate is_email uuid4 cls ∅ = Valid o → fields_set o = ∅) ∧
  filter (λ c, required_fields c = []) classes
    = [UserUpdate; UserUpdateMe; ItemUpdate; BeverageUpdate; TokenPayload].
Proof.
  assert (validation_errors is_email cls ∅
          = (λ n, Error n missing) <$> required_fields cls) as Herr.
  { unfold validation_errors, required_fields.
    induction (model_fields cls) as [|fd fds IH]; [done|].
    rewrite filter_cons. cbn [omap list_omap]. rewrite field_error_empty.
    destruct (is_required fd) eqn:Hr.
    - rewrite decide_True by done. rewrite !fmap_cons. by f_equal.
    - rewrite decide_False by done. exact IH. }
  split; [exact Herr|]. split; [|split].
  - split.
    + intros [o Ho]. apply model_validate_Valid in Ho as [He _].
      rewrite Herr in He. by apply fmap_nil_inv in He.
    + intros Hreq. eexists. apply model_validate_Valid. split; [|reflexivity].
      by rewrite Herr, Hreq.
  - intros o Ho. apply model_validate_Valid in Ho as [_ ->]. simpl.
    apply set_eq. intros n. rewrite (elem_of_given_fields is_email), lookup_empty.
    split; [intros [_ [? ?]]; done | set_solver].
  - vm_compute. reflexivity.
Qed.

Lemma same_name_same_field (fds : list field) fd fd' :
  NoDup (name <$> fds) → fd ∈ fds → fd' ∈ fds → name fd = name fd' → fd = fd'.
Proof.
  induction fds as [|g fds IH]; [by intros _ H; apply elem_of_nil in H|].
  rewrite fmap_cons. intros [Hg Hnd]%NoDup_cons H1 H2 Hn.
  apply elem_of_cons in H1 as [->|H1]; apply elem_of_cons in H2 as [->|H2]; try done.
  - exfalso. apply Hg. rewrite Hn. by apply list_elem_of_fmap_2.
  - exfalso. apply Hg. rewrite <- Hn. by apply list_elem_of_fmap_2.
  - by apply IH.
Qed.

(** The errors reported at a field are the error of that field. *)
Lemma error_at_field cls (p : gmap string value) fd e :
  NoDup (field_names cls) → fd ∈ model_fields cls →
  (e ∈ validation_errors is_email cls p ∧ loc e = name fd) ↔
  field_error is_email p fd = Some e.
Proof.
  intros Hnd Hfd. split.
  - intros [(fd' & Hfd' & He & Hloc)%validation_error_loc Hn].
    assert (fd' = fd) as -> by (apply (same_name_same_field _ _ _ Hnd); congruence).
    done.
  - intros He. split.
    + unfold validation_errors. apply list_elem_of_omap. eauto.
    + unfold field_error in He. destruct (p !! name fd).
      * destruct (check_value is_email fd v); simpl in He; [by injection He as <- | done].
      * destruct (is_required fd); [by injection He as <- | done].
Qed.

Lemma check_length_long fd s hi :
  (∀ lo, get kw_min_length fd = Some lo → lo ≤ String.length s) →
  get kw_max_length fd = Some hi → hi < String.length s →
  check_length fd s = Some string_too_long.
Proof.
  intros Hlo Hhi Hlt. unfold check_length. rewrite Hhi.
  apply Nat.ltb_lt in Hlt. rewrite Hlt.
  destruct (get kw_min_length fd) as [lo|]; [|done].
  specialize (Hlo lo eq_refl). apply Nat.ltb_ge in Hlo. by rewrite Hlo.
Qed.

(** A string given for a string field with both bounds declared. *)
Lemma bounded_string_errors cls fd lo hi (p : gmap string value) s e :
  NoDup (field_names cls) → fd ∈ model_fields cls → base_type (ann fd) = Tstr →
  get kw_min_length fd = Some lo → get kw_max_length fd = Some hi →
  p !! name fd = Some (VStr s) →
  (e ∈ validation_errors is_email cls p ∧ loc e = name fd) ↔
  (e = Error (name fd) string_too_short ∧ String.length s < lo) ∨
  (e = Error (name fd) string_too_long ∧ lo ≤ String.length s ∧ hi < String.length s).
Proof.
  intros Hnd Hfd Ht Hlo Hhi Hp. rewrite error_at_field by done.
  unfold field_error. rewrite Hp, check_value_str by done.
  destruct (decide (String.length s < lo)) as [Hs|Hs].
  { rewrite (check_length_short fd s lo) by done. simpl. split.
    - intros [= <-]. by left.
    - intros [[-> _] | [_ [? _]]]; [done | lia]. }
  destruct (decide (hi < String.length s)) as [Hl|Hl].
  { rewrite (check_length_long fd s hi); try done.
    - simpl. split.
      + intros [= <-]. right. split; [done | lia].
      + intros [[_ ?] | [-> _]]; [lia | done].
    - intros lo' Hlo'. assert (lo' = lo) as -> by congruence. lia. }
  rewrite (proj2 (check_length_None fd s)).
  - simpl. split; [done | intros [[_ ?] | [_ [_ ?]]]; lia].
  - split; intros b Hb.
    + assert (b = lo) as -> by congruence. lia.
    + assert (b = hi) as -> by congruence. lia.
Qed.

(** X2: a password given as a string (UserCreate, UserRegister, UserUpdate,
    UpdatePassword, NewPassword) gets an error exactly when it has fewer
    than 8 characters (too short) or more than 40 (too long). *)
Theorem password_length_8_to_40 cls f (p : gmap string value) s e :
  (cls, f) ∈ password_fields → p !! f = Some (VStr s) →
  (e ∈ validation_errors is_email cls p ∧ loc e = f) ↔
  (e = Error f string_too_short ∧ String.length s < 8) ∨
  (e = Error f string_too_long ∧ 40 < String.length s).
Proof.
  intros Hin Hp.
  assert (∃ fd, fd ∈ model_fields cls ∧ name fd = f ∧ NoDup (field_names cls) ∧
                base_type (ann fd) = Tstr ∧
                get kw_min_length fd = Some 8 ∧ get kw_max_length fd = Some 40)
    as (fd & Hfd & <- & Hnd & Ht & Hlo & Hhi).
  { unfold password_fields in Hin.
    repeat (apply elem_of_cons in Hin as [[= -> ->]|Hin]); [..|by apply elem_of_nil in Hin].
    - exists (Field "password" (Plain Tstr) [min_length 8; max_length 40]).
      split; [in_fields|]. repeat split; try done. distinct_names.
    - exists (Field "password" (Plain Tstr) [min_length 8; max_length 40]).
      split; [in_fields|]. repeat split; try done. distinct_names.
    - exists (Field "password" (OrNone Tstr) [default VNone; min_length 8; max_length 40]).
      split; [in_fields|]. repeat split; try done. distinct_names.
    - exists (Field "current_password" (Plain Tstr) [min_length 8; max_length 40]).
      split; [in_fields|]. repeat split; try done. distinct_names.
    - exists (Field "new_password" (Plain Tstr) [min_length 8; max_length 40]).
      split; [in_fields|]. repeat split; try done. distinct_names.
    - exists (Field "new_password" (Plain Tstr) [min_length 8; max_length 40]).
      split; [in_fields|]. repeat split; try done. distinct_names. }
  rewrite (bounded_string_errors cls fd 8 40 p s e) by done.
  split; (intros [[? ?] | [? ?]]; [left | right]); split; try done; lia.
Qed.

(** An int given for an int field with a lower bound. *)
Lemma bounded_int_errors cls fd lo (p : gmap string value) z e :
  NoDup (field_names cls) → fd ∈ model_fields cls → base_type (ann fd) = Tint →
  get kw_ge fd = Some lo → p !! name fd = Some (VInt z) →
  (e ∈ validation_errors is_email cls p ∧ loc e = name fd) ↔
  (e = Error (name fd) greater_than_equal ∧ (z < lo)%Z).
Proof.
  intros Hnd Hfd Ht Hge Hp. rewrite error_at_field by done.
  unfold field_error. rewrite Hp, check_value_int by done.
  unfold check_ge. rewrite Hge. destruct (Z.ltb_spec z lo); simpl.
  - split; [by intros [= <-] | by intros [-> _]].
  - split; [done | intros [_ ?]; lia].
Qed.

(** X3: an int given as the inventory of a Beverage class gets an error
    exactly when it is negative. *)
Theorem inventory_not_negative cls (p : gmap string value) z e :
  cls ∈ [BeverageBase; BeverageCreate; BeverageUpdate; Beverage; BeveragePublic] →
  p !! "inventory" = Some (VInt z) →
  (e ∈ validation_errors is_email cls p ∧ loc e = "inventory") ↔
  (e = Error "inventory" greater_than_equal ∧ (z < 0)%Z).
Proof.
  intros Hcls Hp.
  assert (∃ fd, fd ∈ model_fields cls ∧ name fd = "inventory" ∧ NoDup (field_names cls) ∧
                base_type (ann fd) = Tint ∧ get kw_ge fd = Some 0%Z)
    as (fd & Hfd & Hn & Hnd & Ht & Hge).
  { repeat (apply elem_of_cons in Hcls as [->|Hcls]); [..|by apply elem_of_nil in Hcls].
    3: exists (Field "inventory" (OrNone Tint) [default VNone; ge 0]).
    1,2,4,5: exists (Field "inventory" (Plain Tint) [ge 0]).
    all: split; [in_fields|]; repeat split; try done; distinct_names. }
  rewrite <- Hn in *. by apply bounded_int_errors.
Qed.

(** A string given for a string field with an upper bound only. *)
Lemma capped_string_errors cls fd hi (p : gmap string value) s e :
  NoDup (field_names cls) → fd ∈ model_fields cls → base_type (ann fd) = Tstr →
  get kw_min_length fd = None → get kw_max_length fd = Some hi →
  p !! name fd = Some (VStr s) →
  (e ∈ validation_errors is_email cls p ∧ loc e = name fd) ↔
  (e = Error (name fd) string_too_long ∧ hi < String.length s).
Proof.
  intros Hnd Hfd Ht Hlo Hhi Hp. rewrite error_at_field by done.
  unfold field_error. rewrite Hp, check_value_str by done.
  destruct (decide (hi < String.length s)) as [Hl|Hl].
  - rewrite (check_length_long fd s hi); try done.
    + simpl. split; [by intros [= <-] | by intros [-> _]].
    + intros lo Hlo'. congruence.
  - rewrite (proj2 (check_length_None fd s)).
    + simpl. split; [done | intros [_ ?]; lia].
    + split; intros b Hb; [congruence|]. assert (b = hi) as -> by congruence. lia.
Qed.

(** X6: the status of an Order is free text: a string given as status
    gets an error exactly when it is longer than 50 characters, whatever
    it says (the empty string included). *)
Theorem order_status_any_string_up_to_50 cls (p : gmap string value) s e :
  cls ∈ [OrderBase; OrderCreate; OrderUpdate; Order; OrderPublic] →
  p !! "status" = Some (VStr s) →
  (e ∈ validation_errors is_email cls p ∧ loc e = "status") ↔
  (e = Error "status" string_too_long ∧ 50 < String.length s).
Proof.
  intros Hcls Hp.
  assert (∃ fd, fd ∈ model_fields cls ∧ name fd = "status" ∧ NoDup (field_names cls) ∧
                base_type (ann fd) = Tstr ∧
                get kw_min_length fd = None ∧ get kw_max_length fd = Some 50)
    as (fd & Hfd & Hn & Hnd & Ht & Hlo & Hhi).
  { repeat (apply elem_of_cons in Hcls as [->|Hcls]); [..|by apply elem_of_nil in Hcls].
    3: exists (Field "status" (OrNone Tstr) [default VNone; max_length 50]).
    1,2,4,5: exists (Field "status" (Plain Tstr) [default (VStr "pending"); max_length 50]).
    all: split; [in_fields|]; repeat split; try done; distinct_names. }
  rewrite <- Hn in *. by apply capped_string_errors.
Qed.






Lemma classes_distinct_names cls : cls ∈ classes → NoDup (field_names cls).
Proof.
  assert (Forall (λ c, NoDup (field_names c)) classes) as H
    by (apply (bool_decide_unpack _); vm_compute; exact I).
  intros Hcls. by apply (proj1 (Forall_forall _ _) H).
Qed.



(** X5: a field the payload omits holds the default its declaration gives
    (status "pending", total_price 0, token_type "bearer", ...) and is
    not among the fields the instance records as set. *)
Theorem omitted_field_takes_declared_default uuid4 cls fd (p : gmap string value) o :
  cls ∈ classes → fd ∈ model_fields cls →
  model_validate is_email uuid4 cls p = Valid o → p !! name fd = None →
  ∃ v, get (kw_default uuid4) fd = Some v ∧ attrs o !! name fd = Some v ∧
       name fd ∉ fields_set o.
Proof.
  intros Hcls Hfd Ho Hp.
  destruct (valid_attr is_email uuid4 cls p o fd (classes_distinct_names cls Hcls) Hfd Ho)
    as [(v & Hv & _) | (v & _ & Hd & Ha)]; [congruence|].
  exists v. split; [done|]. split; [done|].
  apply model_validate_Valid in Ho as [_ ->]. simpl.
  rewrite (elem_of_given_fields is_email). intros [_ [? ?]]. congruence.
Qed.

(** X9: a field given None explicitly is accepted exactly when its
    annotation is [T | None]; the instance then holds None for it and
    records it as set, unlike an omitted field. (BeverageUpdate.price is
    declared [Decimal], so it rejects None, where OrderDetailUpdate.price
    accepts it.) *)
Theorem explicit_None_needs_optional_annotation uuid4 cls fd (p : gmap string value) :
  cls ∈ classes → fd ∈ model_fields cls → p !! name fd = Some VNone →
  (field_error is_email p fd = None ↔ allows_None (ann fd) = true) ∧
  (∀ o, model_validate is_email uuid4 cls p = Valid o →
        attrs o !! name fd = Some VNone ∧ name fd ∈ fields_set o).
Proof.
  intros Hcls Hfd Hp. split.
  - unfold field_error. rewrite Hp. split.
    + destruct (allows_None (ann fd)) eqn:Ha; [done|].
      pose proof (check_value_None_plain is_email fd Ha).
      by destruct (check_value is_email fd VNone).
    + intros Ha. unfold check_value. by rewrite Ha.
  - intros o Ho.
    destruct (valid_attr is_email uuid4 cls p o fd (classes_distinct_names cls Hcls) Hfd Ho)
      as [(v & Hv & _ & Ha) | (v & Hv & _)]; [|congruence].
    rewrite Hp in Hv. injection Hv as <-. split.
    + rewrite Ha. by destruct (base_type (ann fd)).
    + apply model_validate_Valid in Ho as [_ ->]. simpl.
      apply (elem_of_given_fields is_email). split; [by apply list_elem_of_fmap_2|].
      by rewrite Hp.
Qed.

(** X11: a key that is not a field of the class has no effect on
    validation. *)
Theorem undeclared_keys_are_ignored uuid4 cls k v (p : gmap string value) :
  k ∉ field_names cls →
  model_validate is_email uuid4 cls (<[k := v]> p) = model_validate is_email uuid4 cls p.
Proof.
  intros Hk. apply model_validate_ext. intros n Hn.
  apply lookup_insert_ne. congruence.
Qed.

(** The fields a valid instance holds and records as set. *)
Lemma valid_instance_shape uuid4 cls (p : gmap string value) o :
  cls ∈ classes → model_validate is_email uuid4 cls p = Valid o →
  (∀ f, is_Some (attrs o !! f) ↔ f ∈ field_names cls) ∧
  (∀ f, f ∈ fields_set o ↔ f ∈ field_names cls ∧ is_Some (p !! f)).
Proof.
  intros Hcls Ho. split.
  - intros f. split.
    + intros Hf. destruct (decide (f ∈ field_names cls)) as [|Hout]; [done|].
      rewrite (valid_attr_absent is_email uuid4 cls p o f Hout Ho) in Hf. by destruct Hf.
    + intros (fd & -> & Hfd)%list_elem_of_fmap.
      destruct (valid_attr is_email uuid4 cls p o fd (classes_distinct_names cls Hcls) Hfd Ho)
        as [(v & _ & _ & ->) | (v & _ & _ & ->)]; by eexists.
  - intros f. apply model_validate_Valid in Ho as [_ ->]. simpl.
    apply elem_of_given_fields. exact is_email.
Qed.

(** X12: a valid instance holds a value for every declared field and for
    nothing else, and the fields it records as set are the declared fields
    the payload gave. *)
Theorem valid_instance_has_exactly_the_declared_fields uuid4 cls (p : gmap string value) o :
  cls ∈ classes → model_validate is_email uuid4 cls p = Valid o →
  (∀ f, is_Some (attrs o !! f) ↔ f ∈ field_names cls) ∧
  (∀ f, f ∈ fields_set o ↔ f ∈ field_names cls ∧ is_Some (p !! f)).
Proof. apply valid_instance_shape. Qed.

(** X13: the errors of a payload name declared fields, come in declaration
    order and are at most one per field. *)
Theorem errors_follow_declaration_order cls (p : gmap string value) :
  (loc <$> validation_errors is_email cls p) `sublist_of` field_names cls ∧
  (NoDup (field_names cls) → NoDup (loc <$> validation_errors is_email cls p)).
Proof.
  assert ((loc <$> validation_errors is_email cls p) `sublist_of` field_names cls) as Hsub.
  { unfold validation_errors, field_names.
    induction (model_fields cls) as [|fd fds IH]; [constructor|].
    cbn [omap list_omap]. rewrite fmap_cons.
    destruct (field_error is_email p fd) as [e|] eqn:He.
    - rewrite fmap_cons.
      assert (loc e = name fd) as ->.
      { unfold field_error in He. destruct (p !! name fd).
        - destruct (check_value is_email fd v); simpl in He; [by injection He as <- | done].
        - destruct (is_required fd); [by injection He as <- | done]. }
      by constructor.
    - by constructor. }
  split; [done|]. intros Hnd. by eapply sublist_NoDup.
Qed.

Lemma check_value_any_email fd v :
  check_value (λ _, false) fd v = None → check_value is_email fd v = None.
Proof.
  unfold check_value, check_typed.
  destruct v, (allows_None (ann fd)), (base_type (ann fd)); simpl; done.
Qed.

Lemma same_checks_check fd fd' v :
  same_checks fd fd' = true → check_value is_email fd v = check_value is_email fd' v.
Proof.
  intros (Ha & H1 & H2 & H3 & H4 & H5)%bool_decide_eq_true.
  unfold check_value, check_typed, check_length_after, check_length, check_ge,
    check_decimal, check_decimal_digits.
  by rewrite Ha, H1, H2, H3, H4, H5.
Qed.

Lemma default_any_uuid uuid4 fd v :
  get (kw_default uuid4) fd = Some v →
  ∃ v', get (kw_default 0) fd = Some v' ∧ (v' = v ∨ ∃ a b, v = VUuid a ∧ v' = VUuid b).
Proof.
  unfold get. induction (kwargs fd) as [|k ks IH]; [done|].
  destruct k; simpl; try (by apply IH); intros [= Hv].
  - eexists. split; [reflexivity|]. by left.
  - eexists. split; [reflexivity|]. right. by eexists _, _.
Qed.

Lemma default_passes_check uuid4 fd v :
  default_passes fd = true → get (kw_default uuid4) fd = Some v →
  check_value is_email fd v = None.
Proof.
  intros Hd (v' & Hv' & Hrel)%default_any_uuid. unfold default_passes in Hd.
  rewrite Hv' in Hd. apply bool_decide_eq_true in Hd. apply check_value_any_email.
  destruct Hrel as [<- | (a & b & -> & ->)]; [done|].
  revert Hd. unfold check_value, check_typed. by destruct (base_type (ann fd)).
Qed.

(** The attribute a valid instance holds for a field passes the checks of
    the field. *)
Lemma attr_passes uuid4 cls (p : gmap string value) o fd :
  NoDup (field_names cls) → fd ∈ model_fields cls → default_passes fd = true →
  model_validate is_email uuid4 cls p = Valid o →
  ∃ v, attrs o !! name fd = Some v ∧ check_value is_email fd v = None.
Proof.
  intros Hnd Hfd Hdef Ho.
  destruct (valid_attr is_email uuid4 cls p o fd Hnd Hfd Ho)
    as [(v & _ & Hc & Ha) | (v & _ & Hd & Ha)]; eexists; (split; [exact Ha|]).
  - by apply check_value_coerce.
  - by eapply default_passes_check.
Qed.

(** A field of another class declared with the same checks accepts the
    attribute of a valid instance. *)
Lemma field_carries_over uuid4 src (p : gmap string value) o fd fd' :
  NoDup (field_names src) → fd ∈ model_fields src → name fd = name fd' →
  same_checks fd fd' = true → default_passes fd = true →
  model_validate is_email uuid4 src p = Valid o →
  field_error is_email (attrs o) fd' = None.
Proof.
  intros Hnd Hfd Hn Hsame Hdef Ho.
  destruct (attr_passes uuid4 src p o fd Hnd Hfd Hdef Ho) as (v & Ha & Hc).
  unfold field_error. by rewrite <- Hn, Ha, <- (same_checks_check fd fd' v Hsame), Hc.
Qed.

Lemma revalidates_accepts uuid4 uuid4' src dst (p : gmap string value) o :
  revalidates src dst = true → NoDup (field_names src) →
  model_validate is_email uuid4 src p = Valid o →
  ∃ o', model_validate is_email uuid4' dst (attrs o) = Valid o'.
Proof.
  intros Hrev Hnd Ho. apply accepted_iff. intros fd' Hfd'.
  unfold revalidates in Hrev. rewrite forallb_forall in Hrev.
  specialize (Hrev fd' (proj1 (list_elem_of_In _ _) Hfd')).
  apply orb_true_iff in Hrev as [Hex | [Hout Hopt]%andb_true_iff].
  - apply existsb_exists in Hex as (fd & Hfd%list_elem_of_In & H).
    apply andb_true_iff in H as [[Hn%bool_decide_eq_true Hsame]%andb_true_iff Hdef].
    destruct (attr_passes uuid4 src p o fd Hnd Hfd Hdef Ho) as (v & Ha & Hc).
    unfold field_error. rewrite <- Hn, Ha, <- (same_checks_check fd fd' v Hsame), Hc. done.
  - apply bool_decide_eq_true in Hout.
    unfold field_error.
    rewrite (valid_attr_absent is_email uuid4 src p o (name fd') Hout Ho).
    by destruct (is_required fd').
Qed.

Lemma classes_revalidate cls : cls ∈ classes → revalidates cls cls = true.
Proof.
  assert (Forall (λ c, revalidates c c = true) classes) as H
    by (apply (bool_decide_unpack _); vm_compute; exact I).
  intros Hcls. by apply (proj1 (Forall_forall _ _) H).
Qed.

(** X14: the attributes of a valid instance are accepted by the same class
    again, with every field set, and validating the result once more
    gives it back unchanged. *)
Theorem dumped_instance_validates_again uuid4 uuid4' cls (p : gmap string value) o :
  cls ∈ classes → model_validate is_email uuid4 cls p = Valid o →
  ∃ o', model_validate is_email uuid4' cls (attrs o) = Valid o' ∧
        model_validate is_email uuid4' cls (attrs o') = Valid o' ∧
        (∀ f, f ∈ fields_set o' ↔ f ∈ field_names cls).
Proof.
  intros Hcls Ho. pose proof (classes_distinct_names cls Hcls) as Hnd.
  destruct (revalidates_accepts uuid4 uuid4' cls cls p o (classes_revalidate cls Hcls) Hnd Ho)
    as [o' Ho'].
  destruct (revalidates_accepts uuid4' uuid4' cls cls _ o' (classes_revalidate cls Hcls)
              Hnd Ho') as [o'' Ho''].
  destruct (valid_instance_shape uuid4 cls p o Hcls Ho) as [Hall _].
  destruct (valid_instance_shape uuid4' cls _ o' Hcls Ho')
    as [Hall' Hset'].
  destruct (valid_instance_shape uuid4' cls _ o'' Hcls Ho'')
    as [Hall'' Hset''].
  assert (∀ f, f ∈ fields_set o' ↔ f ∈ field_names cls) as Hfs'.
  { intros f. rewrite Hset', <- Hall. tauto. }
  exists o'. split; [done|]. split; [|done].
  rewrite Ho''. f_equal. destruct o' as [a' s'], o'' as [a'' s'']. simpl in *. f_equal.
  - apply map_eq. intros f.
    destruct (decide (f ∈ field_names cls)) as [Hin|Hout].
    + apply list_elem_of_fmap in Hin as (fd & -> & Hfd).
      destruct (valid_attr is_email uuid4' cls _ _ fd Hnd Hfd Ho')
        as [(v & Hv & _ & Ha') | (v & Hv & _)]; simpl in *;
        [|exfalso; destruct (proj2 (Hall (name fd)) (list_elem_of_fmap_2 _ _ _ Hfd));
          congruence].
      destruct (valid_attr is_email uuid4' cls _ _ fd Hnd Hfd Ho'')
        as [(w & Hw & _ & Ha'') | (w & Hw & _)]; simpl in *; [|congruence].
      rewrite Ha'', Ha'. rewrite Ha' in Hw. injection Hw as <-. by rewrite coerce_idemp.
    + pose proof (valid_attr_absent is_email uuid4' cls _ _ f Hout Ho'') as H1.
      pose proof (valid_attr_absent is_email uuid4' cls _ _ f Hout Ho') as H2.
      simpl in H1, H2. congruence.
  - apply set_eq. intros f. rewrite Hfs', Hset'', <- Hall'. tauto.
Qed.

(** X7: every valid User, Beverage, Order and OrderDetail row has a public
    view, with exactly the fields of its Public class; a valid Item row
    has one exactly when its title is not empty (ItemPublic keeps
    [min_length=1], which Item drops). *)
Theorem public_view_of_a_stored_row uuid4 :
  (∀ e (p : gmap string value) u, e ≠ EItem →
     model_validate is_email uuid4 (table_model e) p = Valid u →
     ∃ pub, serialize is_email (public_shape e) (attrs u) = Some pub ∧
            ∀ f, is_Some (pub !! f) ↔ f ∈ field_names (public_shape e)) ∧
  (∀ (p : gmap string value) u,
     model_validate is_email uuid4 Item p = Valid u →
     (∃ pub, serialize is_email ItemPublic (attrs u) = Some pub) ↔
     attrs u !! "title" ≠ Some (VStr "")).
Proof.
  split.
  - intros e p u He Hu.
    assert (revalidates (table_model e) (public_shape e) = true) as Hrev
      by (destruct e; try done; vm_compute; reflexivity).
    assert (NoDup (field_names (table_model e))) as Hnd by (destruct e; distinct_names).
    destruct (revalidates_accepts uuid4 0 _ _ p u Hrev Hnd Hu) as [o Ho].
    exists (attrs o). split; [by unfold serialize; rewrite Ho|].
    apply (valid_instance_shape 0 (public_shape e) (attrs u) o);
      [|done].
    destruct e; unfold classes; cbn [public_shape]; set_solver.
  - intros p u Hu.
    assert (NoDup (field_names Item)) as Hnd by distinct_names.
    destruct (valid_attr is_email uuid4 Item p u (Field "title" (Plain Tstr) [max_length 255])
                Hnd ltac:(in_fields) Hu) as [(v & _ & Hc & Ha) | (v & _ & Hd & _)];
      [|by vm_compute in Hd].
    simpl name in Ha. simpl base_type in Ha.
    destruct v as [| | |s| |]; try (by vm_compute in Hc).
    rewrite check_value_str in Hc by done.
    apply check_length_None in Hc as [_ Hmax]. specialize (Hmax 255 eq_refl).
    simpl coerce in Ha.
    set (title := Field "title" (Plain Tstr) [min_length 1; max_length 255]).
    assert (field_error is_email (attrs u) title = Error "title" <$> check_length title s)
      as Htitle.
    { unfold field_error. simpl name. by rewrite Ha, check_value_str. }
    rewrite Ha. split.
    + intros [pub Hpub] [= ->]. unfold serialize in Hpub.
      destruct (model_validate is_email 0 ItemPublic (attrs u)) as [o|] eqn:Ho; [|done].
      pose proof (valid_field_error is_email _ _ _ _ title Ho ltac:(subst title; in_fields))
        as He.
      rewrite Htitle in He. by vm_compute in He.
    + intros Hne.
      assert (∃ o, model_validate is_email 0 ItemPublic (attrs u) = Valid o) as [o Ho].
      { apply accepted_iff. intros fd' Hfd'. each_field Hfd'.
        - fold title. rewrite Htitle, (proj2 (check_length_None title s)); [done|].
          split; intros b Hb; vm_compute in Hb; simplify_eq; [|lia].
          destruct s; [done | simpl; lia].
        - apply (field_carries_over uuid4 Item p u
                   (Field "description" (OrNone Tstr) [default VNone; max_length 255]));
            try done. in_fields.
        - apply (field_carries_over uuid4 Item p u
                   (Field "id" (Plain TUUID) [default_factory_uuid4; primary_key true]));
            try done. in_fields.
        - apply (field_carries_over uuid4 Item p u
                   (Field "owner_id" (Plain TUUID)
                      [foreign_key "user.id"; nullable false; ondelete "CASCADE"]));
            try done. in_fields. }
      exists (attrs o). by unfold serialize; rewrite Ho.
Qed.

(** X8: no Create shape carries an id, so a payload cannot choose it; the
    attributes of a valid BeverageCreate, OrderCreate or OrderDetailCreate
    instance validate as a table row whose id is the fresh one; those of an
    ItemCreate or UserCreate instance are rejected by the table class for
    the missing owner_id or hashed_password, which the payload cannot
    supply. *)
Theorem create_instance_builds_the_row uuid4 uuid4' :
  (∀ e (p : gmap string value) o,
     model_validate is_email uuid4 (create_shape e) p = Valid o →
     attrs o !! "id" = None) ∧
  (∀ e (p : gmap string value) o, e ∈ [EBeverage; EOrder; EOrderDetail] →
     model_validate is_email uuid4 (create_shape e) p = Valid o →
     ∃ row, model_validate is_email uuid4' (table_model e) (attrs o) = Valid row ∧
            attrs row !! "id" = Some (VUuid uuid4')) ∧
  (∀ (p : gmap string value) o,
     model_validate is_email uuid4 ItemCreate p = Valid o →
     attrs o !! "owner_id" = None ∧
     ∃ errs, model_validate is_email uuid4' Item (attrs o) = Invalid errs ∧
             Error "owner_id" missing ∈ errs) ∧
  (∀ (p : gmap string value) o,
     model_validate is_email uuid4 UserCreate p = Valid o →
     attrs o !! "hashed_password" = None ∧
     ∃ errs, model_validate is_email uuid4' User (attrs o) = Invalid errs ∧
             Error "hashed_password" missing ∈ errs).
Proof.
  assert (∀ e (p : gmap string value) o,
            model_validate is_email uuid4 (create_shape e) p = Valid o →
            attrs o !! "id" = None) as Hid.
  { intros e p o Ho. apply (valid_attr_absent is_email uuid4 (create_shape e) p o); [|done].
    destruct e; apply (bool_decide_unpack _); vm_compute; exact I. }
  split; [exact Hid|]. split; [|split].
  - intros e p o He Ho.
    assert (revalidates (create_shape e) (table_model e) = true) as Hrev.
    { repeat (apply elem_of_cons in He as [->|He]); [..|by apply elem_of_nil in He];
        vm_compute; reflexivity. }
    assert (NoDup (field_names (create_shape e))) as Hnd by (destruct e; distinct_names).
    destruct (revalidates_accepts uuid4 uuid4' _ _ p o Hrev Hnd Ho) as [row Hrow].
    exists row. split; [done|].
    assert (∃ fd, fd ∈ model_fields (table_model e) ∧ name fd = "id" ∧
                  get (kw_default uuid4') fd = Some (VUuid uuid4')) as (fd & Hfd & Hn & Hd).
    { exists (Field "id" (Plain TUUID) [default_factory_uuid4; primary_key true]).
      split; [destruct e; in_fields | done]. }
    destruct (valid_attr is_email uuid4' (table_model e) _ row fd
                ltac:(destruct e; distinct_names) Hfd Hrow)
      as [(v & Hv & _) | (v & _ & Hd' & Ha)]; rewrite Hn in *.
    + rewrite (Hid e p o Ho) in Hv. done.
    + congruence.
  - intros p o Ho.
    assert (attrs o !! "owner_id" = None) as Hown.
    { apply (valid_attr_absent is_email uuid4 ItemCreate p o); [|done].
      apply (bool_decide_unpack _). vm_compute. exact I. }
    split; [done|].
    apply (field_error_rejects is_email uuid4' Item (attrs o)
             (Field "owner_id" (Plain TUUID)
                [foreign_key "user.id"; nullable false; ondelete "CASCADE"]));
      [in_fields|].
    unfold field_error. simpl name. by rewrite Hown.
  - intros p o Ho.
    assert (attrs o !! "hashed_password" = None) as Hpw.
    { apply (valid_attr_absent is_email uuid4 UserCreate p o); [|done].
      apply (bool_decide_unpack _). vm_compute. exact I. }
    split; [done|].
    apply (field_error_rejects is_email uuid4' User (attrs o)
             (Field "hashed_password" (Plain Tstr) [])); [in_fields|].
    unfold field_error. simpl name. by rewrite Hpw.
Qed.

(** X10: every relationship is paired with the relationship its
    [back_populates] names on the target class (one side a list, the other
    not); every foreign key names the primary key of an entity's table;
    the list side of a relationship has a foreign key back on the target;
    and the cascades are exactly the relationships declared with
    [cascade_delete=True]. *)
Theorem relationships_and_foreign_keys_are_consistent (e : entity) :
  (∀ r, r ∈ relationships (table_model e) → relationship_paired e r = true) ∧
  (∀ fd target, fd ∈ model_fields (table_model e) →
     get kw_foreign_key fd = Some target →
     ∃ p, (name fd, p) ∈ foreign_keys e ∧ target = table_of p +:+ ".id" ∧
          "id" ∈ unique_columns (table_model p)) ∧
  (∀ r, r ∈ relationships (table_model e) → rel_many r = true →
     ∃ c col, class_named (rel_target r) = Some c ∧ (col, e) ∈ foreign_keys c) ∧
  (∀ c col, (c, col) ∈ cascade_children e →
     ∃ r, r ∈ relationships (table_model e) ∧ cascade_delete r = true ∧
          class_named (rel_target r) = Some c ∧ (col, e) ∈ foreign_keys c) ∧
  (∀ r, r ∈ relationships (table_model e) → cascade_delete r = true →
     ∃ c col, class_named (rel_target r) = Some c ∧ (c, col) ∈ cascade_children e).
Proof.
  split; [|split; [|split; [|split]]].
  - intros r Hr. destruct e; each_field Hr; vm_compute; reflexivity.
  - intros fd target Hfd Ht.
    destruct e; each_field Hfd; vm_compute in Ht; try discriminate;
      injection Ht as <-;
      first [ exists EUser; split; [vm_compute; by repeat constructor|];
              split; [reflexivity | vm_compute; by repeat constructor]
            | exists EOrder; split; [vm_compute; by repeat constructor|];
              split; [reflexivity | vm_compute; by repeat constructor]
            | exists EItem; split; [vm_compute; by repeat constructor|];
              split; [reflexivity | vm_compute; by repeat constructor] ].
  - intros r Hr Hmany.
    destruct e; each_field Hr; try discriminate Hmany;
      first [ exists EItem, "owner_id"; split; [reflexivity | vm_compute; by repeat constructor]
            | exists EOrder, "user_id"; split; [reflexivity | vm_compute; by repeat constructor]
            | exists EOrderDetail, "order_id";
              split; [reflexivity | vm_compute; by repeat constructor] ].
  - intros c col Hc.
    destruct e; vm_compute in Hc;
      repeat (apply elem_of_cons in Hc as [[= -> ->]|Hc]); try (by apply elem_of_nil in Hc).
    + exists (Relationship "items" "Item" true "owner" true).
      split; [in_fields|]. repeat split; try reflexivity. vm_compute. by repeat constructor.
    + exists (Relationship "orders" "Order" true "user" true).
      split; [in_fields|]. repeat split; try reflexivity. vm_compute. by repeat constructor.
    + exists (Relationship "order_details" "OrderDetail" true "order" true).
      split; [in_fields|]. repeat split; try reflexivity. vm_compute. by repeat constructor.
  - intros r Hr Hcascade.
    destruct e; each_field Hr; try discriminate Hcascade;
      first [ exists EItem, "owner_id"; split; [reflexivity | vm_compute; by repeat constructor]
            | exists EOrder, "user_id"; split; [reflexivity | vm_compute; by repeat constructor]
            | exists EOrderDetail, "order_id";
              split; [reflexivity | vm_compute; by repeat constructor] ].
Qed.


(** X16: description and full_name are optional everywhere and, given as
    a string, get an error exactly when longer than 255 characters. *)
Theorem optional_text_up_to_255 cls fd (p : gmap string value) s e :
  cls ∈ classes → fd ∈ model_fields cls → name fd ∈ ["description"; "full_name"] →
  p !! name fd = Some (VStr s) →
  allows_None (ann fd) = true ∧ is_required fd = false ∧
  ((e ∈ validation_errors is_email cls p ∧ loc e = name fd) ↔
   (e = Error (name fd) string_too_long ∧ 255 < String.length s)).
Proof.
  intros Hcls Hfd Hname Hp.
  assert (Forall (λ c, Forall (λ fd, name fd ∈ ["description"; "full_name"] →
                                     ann fd = OrNone Tstr ∧ is_required fd = false ∧
                                     get kw_min_length fd = None ∧
                                     get kw_max_length fd = Some 255)
                              (model_fields c)) classes) as H
    by (apply (bool_decide_unpack _); vm_compute; exact I).
  pose proof (proj1 (Forall_forall _ _) H cls Hcls) as Hc.
  destruct (proj1 (Forall_forall _ _) Hc fd Hfd Hname) as (Ha & Hr & Hlo & Hhi).
  split; [by rewrite Ha|]. split; [done|].
  apply capped_string_errors; try done.
  - by apply classes_distinct_names.
  - by rewrite Ha.
Qed.

(** X17: a payload that omits a required field is rejected with a missing
    error for that field; the required fields of the Create shapes are as
    listed. *)
Theorem missing_required_field_is_reported uuid4 cls (p : gmap string value) n :
  n ∈ required_fields cls → p !! n = None →
  (∃ errs, model_validate is_email uuid4 cls p = Invalid errs ∧ Error n missing ∈ errs) ∧
  (required_fields <$> [UserCreate; ItemCreate; BeverageCreate; OrderCreate; OrderDetailCreate])
    = [["email"; "password"]; ["title"]; ["name"; "inventory"]; ["user_id"];
       ["order_id"; "item_id"; "quantity"]].
Proof.
  intros Hn Hp. split; [|vm_compute; reflexivity].
  unfold required_fields in Hn.
  apply list_elem_of_fmap in Hn as (fd & -> & [Hreq Hfd]%list_elem_of_filter).
  apply (field_error_rejects is_email uuid4 cls p fd); [done|].
  unfold field_error. by rewrite Hp, Hreq.
Qed.

End Extras.

Lemma public_view_of_a_stored_row_witness :
  ∃ u, model_validate (λ _, true) 7 Item {[ "title" := VStr ""; "owner_id" := VUuid 1 ]}
         = Valid u ∧
       serialize (λ _, true) ItemPublic (attrs u) = None.
Proof.
  assert (∃ u, model_validate (λ _, true) 7 Item
                 {[ "title" := VStr ""; "owner_id" := VUuid 1 ]} = Valid u) as [u Hu]
    by (eexists; vm_compute; reflexivity).
  exists u. split; [exact Hu|].
  destruct (public_view_of_a_stored_row (λ _, true) 7) as [_ HItem].
  destruct (serialize (λ _, true) ItemPublic (attrs u)) as [pub|] eqn:Hs; [|reflexivity].
  exfalso. apply (proj1 (HItem _ u Hu)); [by exists pub|].
  apply model_validate_Valid in Hu as [_ ->]. vm_compute. reflexivity.
Defined.

Lemma create_instance_builds_the_row_witness :
  ∃ o row,
    model_validate (λ _, true) 0 BeverageCreate
      {[ "id" := VUuid 99; "name" := VStr "cola"; "inventory" := VInt 3 ]} = Valid o ∧
    model_validate (λ _, true) 7 Beverage (attrs o) = Valid row ∧
    attrs row !! "id" = Some (VUuid 7).
Proof.
  assert (∃ o, model_validate (λ _, true) 0 BeverageCreate
                 {[ "id" := VUuid 99; "name" := VStr "cola"; "inventory" := VInt 3 ]}
               = Valid o) as [o Ho] by (eexists; vm_compute; reflexivity).
  destruct (create_instance_builds_the_row (λ _, true) 0 7) as (_ & Hrow & _).
  destruct (Hrow EBeverage _ o ltac:(repeat constructor) Ho) as (row & Hr & Hid).
  exists o, row. split; [exact Ho|]. split; [exact Hr | exact Hid].
Defined.

Lemma dumped_instance_validates_again_witness :
  ∃ o o', model_validate (λ _, true) 0 OrderCreate {[ "user_id" := VUuid 1 ]} = Valid o ∧
          model_validate (λ _, true) 0 OrderCreate (attrs o) = Valid o' ∧
          model_validate (λ _, true) 0 OrderCreate (attrs o') = Valid o'.
Proof.
  assert (∃ o, model_validate (λ _, true) 0 OrderCreate {[ "user_id" := VUuid 1 ]} = Valid o)
    as [o Ho] by (eexists; vm_compute; reflexivity).
  destruct (dumped_instance_validates_again (λ _, true) 0 0 OrderCreate _ o
              ltac:(unfold classes; repeat constructor) Ho) as (o' & H1 & H2 & _).
  exists o, o'. split; [exact Ho|]. split; [exact H1 | exact H2].
Defined.


Lemma optional_text_up_to_255_witness :
  Error "description" string_too_long
    ∉ validation_errors (λ _, true) ItemCreate
        {[ "title" := VStr "tea"; "description" := VStr "green" ]}.
Proof.
  intros He.
  destruct (optional_text_up_to_255 (λ _, true) ItemCreate
              (Field "description" (OrNone Tstr) [default VNone; max_length 255])
              {[ "title" := VStr "tea"; "description" := VStr "green" ]} "green"
              (Error "description" string_too_long)
              ltac:(unfold classes; repeat constructor) ltac:(in_fields)
              ltac:(repeat constructor) eq_refl) as (_ & _ & Hiff).
  destruct (proj1 Hiff (conj He eq_refl)) as [_ Hlen]. simpl in Hlen. lia.
Defined.

Lemma missing_required_field_is_reported_witness :
  ∃ errs, model_validate (λ _, true) 0 OrderDetailCreate
            {[ "order_id" := VUuid 1; "quantity" := VInt 2 ]} = Invalid errs ∧
          Error "item_id" missing ∈ errs.
Proof.
  apply (missing_required_field_is_reported (λ _, true) 0 OrderDetailCreate
           {[ "order_id" := VUuid 1; "quantity" := VInt 2 ]} "item_id").
  - vm_compute. repeat constructor.
  - reflexivity.
Defined.

Lemma omitted_field_takes_declared_default_witness :
  ∃ o, model_validate (λ _, true) 0 OrderCreate {[ "user_id" := VUuid 1 ]} = Valid o ∧
       attrs o !! "status" = Some (VStr "pending") ∧ "status" ∉ fields_set o.
Proof.
  assert (∃ o, model_validate (λ _, true) 0 OrderCreate {[ "user_id" := VUuid 1 ]} = Valid o)
    as [o Ho] by (eexists; vm_compute; reflexivity).
  exists o. split; [exact Ho|].
  destruct (omitted_field_takes_declared_default (λ _, true) 0 OrderCreate
              (Field "status" (Plain Tstr) [default (VStr "pending"); max_length 50])
              _ o ltac:(unfold classes; repeat constructor) ltac:(in_fields) Ho eq_refl)
    as (v & Hv & Ha & Hs).
  injection Hv as <-. split; [exact Ha | exact Hs].
Defined.

Lemma explicit_None_needs_optional_annotation_witness :
  field_error (λ _, true) {[ "price" := VNone ]}
    (Field "price" (Plain TDecimal) [default (VInt 0); max_digits 5; decimal_places 3]) ≠ None ∧
  field_error (λ _, true) {[ "price" := VNone ]}
    (Field "price" (OrNone TDecimal) [default VNone; max_digits 10; decimal_places 2]) = None.
Proof.
  split.
  - intros H.
    apply (explicit_None_needs_optional_annotation (λ _, true) 0 BeverageUpdate
             (Field "price" (Plain TDecimal) [default (VInt 0); max_digits 5; decimal_places 3])
             {[ "price" := VNone ]}
             ltac:(unfold classes; repeat constructor) ltac:(in_fields) eq_refl) in H.
    discriminate H.
  - apply (explicit_None_needs_optional_annotation (λ _, true) 0 OrderDetailUpdate
             (Field "price" (OrNone TDecimal) [default VNone; max_digits 10; decimal_places 2])
             {[ "price" := VNone ]}
             ltac:(unfold classes; repeat constructor) ltac:(in_fields) eq_refl).
    reflexivity.
Defined.

Lemma undeclared_keys_are_ignored_witness :
  model_validate (λ _, true) 0 UserUpdateMe
    (<["is_superuser" := VBool true]> {[ "full_name" := VStr "Ann" ]})
  = model_validate (λ _, true) 0 UserUpdateMe {[ "full_name" := VStr "Ann" ]}.
Proof.
  apply (undeclared_keys_are_ignored (λ _, true) 0 UserUpdateMe).
  apply (bool_decide_unpack _). vm_compute. exact I.
Defined.

Lemma valid_instance_has_exactly_the_declared_fields_witness :
  ∃ o, model_validate (λ _, true) 0 Token {[ "access_token" := VStr "abc" ]} = Valid o ∧
       is_Some (attrs o !! "token_type") ∧ "token_type" ∉ fields_set o.
Proof.
  assert (∃ o, model_validate (λ _, true) 0 Token {[ "access_token" := VStr "abc" ]} = Valid o)
    as [o Ho] by (eexists; vm_compute; reflexivity).
  exists o. split; [exact Ho|].
  destruct (valid_instance_has_exactly_the_declared_fields (λ _, true) 0 Token _ o
              ltac:(unfold classes; repeat constructor) Ho) as [Ha Hs].
  split.
  - apply Ha. apply (bool_decide_unpack _). vm_compute. exact I.
  - intros [_ Hin]%Hs. by destruct Hin.
Defined.


Lemma inventory_not_negative_witness :
  Error "inventory" greater_than_equal
    ∈ validation_errors (λ _, true) BeverageCreate
        {[ "name" := VStr "cola"; "inventory" := VInt (-1) ]}.
Proof.
  apply (inventory_not_negative (λ _, true) BeverageCreate
           {[ "name" := VStr "cola"; "inventory" := VInt (-1) ]} (-1)).
  - repeat constructor.
  - reflexivity.
  - split; [reflexivity | lia].
Defined.

Lemma order_status_any_string_up_to_50_witness :
  Error "status" string_too_long
    ∉ validation_errors (λ _, true) OrderCreate
        {[ "user_id" := VUuid 1; "status" := VStr "" ]}.
Proof.
  intros He.
  destruct (proj1 (order_status_any_string_up_to_50 (λ _, true) OrderCreate
                     {[ "user_id" := VUuid 1; "status" := VStr "" ]} ""
                     (Error "status" string_too_long)
                     ltac:(repeat constructor) eq_refl) (conj He eq_refl)) as [_ Hlen].
  simpl in Hlen. lia.
Defined.

Lemma password_length_8_to_40_witness :
  Error "password" string_too_short
    ∈ validation_errors (λ _, true) UserRegister
        {[ "email" := VStr "a@x.org"; "password" := VStr "1234567" ]}.
Proof.
  apply (password_length_8_to_40 (λ _, true) UserRegister "password"
           {[ "email" := VStr "a@x.org"; "password" := VStr "1234567" ]} "1234567").
  - unfold password_fields. repeat constructor.
  - reflexivity.
  - left. split; [reflexivity | simpl; lia].
Defined.
